(** * Kea icon background removal: a model of [remove_backgrounds.py]

    The script walks over a fixed list of three icon file names, reads every
    icon that exists below [public/], hands its bytes to [rembg.remove] and
    stores the answer below [public/transparent/].

    The script is embedded as a program in a small monad that threads the
    filesystem, collects the observable operations in the order in which
    they happen, and stops at the first uncaught exception.

    Modelling choices.
    - The filesystem is a finite map from path strings, exactly as the
      script spells them (relative to the working directory), to nodes: a
      regular file with its permission bits and bytes, or a directory.
      Symbolic links and hard links are not modelled.  The working directory
      and the root directory always exist.
    - [os.path] is [posixpath]; [os.makedirs], [os.mkdir], [os.path.exists],
      [os.path.isdir] and [open] follow CPython on POSIX.
    - [rembg.remove] is a parameter of the development: a function from
      bytes to either an error message (the call raised) or bytes. *)

From Stdlib Require Import Strings.Byte Strings.Ascii Strings.String.
From stdpp Require Import gmap strings list fin_maps.

(** ** Python strings *)

(** [s * n] on a string. *)
Fixpoint str_mul (s : string) (n : nat) : string :=
  match n with
  | O => ""
  | S k => s +:+ str_mul s k
  end.

(** ** [posixpath] *)

Module posixpath.

Definition is_sep (c : ascii) : bool := Ascii.eqb c "/"%char.

Definition nonempty (s : string) : bool :=
  match s with
  | EmptyString => false
  | String _ _ => true
  end.

(** [s.startswith('/')] *)
Definition startswith_sep (s : string) : bool :=
  match s with
  | EmptyString => false
  | String c _ => is_sep c
  end.

(** [s.endswith('/')] *)
Fixpoint endswith_sep (s : string) : bool :=
  match s with
  | EmptyString => false
  | String c EmptyString => is_sep c
  | String _ r => endswith_sep r
  end.

(** [posixpath.join(a, b)] for one component [b]:
    an absolute [b] replaces [a]; otherwise [b] is appended, after a
    separator unless [a] is empty or already ends with one. *)
Definition join (a b : string) : string :=
  if startswith_sep b then b
  else if negb (nonempty a) || endswith_sep a then a +:+ b
  else a +:+ "/" +:+ b.

(** [i = p.rfind('/') + 1; (p[:i], p[i:])] *)
Fixpoint rsplit (p : string) : string * string :=
  match p with
  | EmptyString => ("", "")
  | String c r =>
      let (h, t) := rsplit r in
      if nonempty h || is_sep c then (String c h, t) else ("", String c t)
  end.

(** [s == '/' * len(s)] *)
Fixpoint all_sep (s : string) : bool :=
  match s with
  | EmptyString => true
  | String c r => is_sep c && all_sep r
  end.

(** [s.rstrip('/')] *)
Fixpoint rstrip_sep (s : string) : string :=
  match s with
  | EmptyString => ""
  | String c r =>
      let r' := rstrip_sep r in
      if is_sep c && negb (nonempty r') then "" else String c r'
  end.

(** [posixpath.split(p)] *)
Definition split (p : string) : string * string :=
  let (head, tail) := rsplit p in
  (if nonempty head && negb (all_sep head) then rstrip_sep head else head,
   tail).

Definition basename (p : string) : string := snd (rsplit p).

Definition dirname (p : string) : string := fst (split p).

End posixpath.

(** ** The filesystem and the observable operations *)

Record file_mode := FileMode { readable : bool; writable : bool }.

Inductive node :=
| NFile (mode : file_mode) (content : list byte)
| NDir.

Abbreviation filesystem := (gmap string node).

(** The mode of a file that [open(path, 'wb')] creates. *)
Definition new_file_mode : file_mode := FileMode true true.

Inductive exn :=
| FileNotFoundError (path : string)
| FileExistsError (path : string)
| IsADirectoryError (path : string)
| NotADirectoryError (path : string)
| PermissionError (path : string)
| RembgError (msg : string).

Inductive event :=
| EMkdir (path : string)                       (* a directory was created *)
| EExists (path : string) (answer : bool)      (* os.path.exists *)
| ERead (path : string) (data : list byte)     (* open 'rb' + read *)
| ERemove (data : list byte)                   (* rembg.remove was called *)
| EWrite (path : string) (data : list byte)    (* open 'wb' + write *)
| EPrint (line : string).                      (* print *)

(** ** The monad of scripts *)

Record outcome (A : Type) := Outcome {
  fs_after : filesystem;
  events : list event;
  result : exn + A
}.
Arguments Outcome {A} _ _ _.
Arguments fs_after {A} _.
Arguments events {A} _.
Arguments result {A} _.

Definition M (A : Type) : Type := filesystem → outcome A.

Definition ret {A} (a : A) : M A := λ fs, Outcome fs [] (inr a).

Definition raise {A} (e : exn) : M A := λ fs, Outcome fs [] (inl e).

Definition bind {A B} (m : M A) (k : A → M B) : M B := λ fs,
  let r := m fs in
  match result r with
  | inl e => Outcome (fs_after r) (events r) (inl e)
  | inr a =>
      let r' := k a (fs_after r) in
      Outcome (fs_after r') (events r ++ events r') (result r')
  end.

Definition emit (ev : event) : M unit := λ fs, Outcome fs [ev] (inr tt).

Definition get_fs : M filesystem := λ fs, Outcome fs [] (inr fs).

Definition put_fs (fs' : filesystem) : M unit := λ _, Outcome fs' [] (inr tt).

(** [try: m except FileExistsError: pass] *)
Definition except_FileExistsError_pass (m : M unit) : M unit := λ fs,
  let r := m fs in
  match result r with
  | inl (FileExistsError _) => Outcome (fs_after r) (events r) (inr tt)
  | _ => r
  end.

Declare Scope script_scope.
Delimit Scope script_scope with script.
Notation "x <- m ;; k" := (bind m (λ x, k))
  (at level 100, m at next level, k at level 200, right associativity)
  : script_scope.
Notation "m ;;; k" := (bind m (λ _, k))
  (at level 100, k at level 200, right associativity) : script_scope.
Open Scope script_scope.

(** [for x in xs: body(x)] *)
Fixpoint for_each {A} (xs : list A) (body : A → M unit) : M unit :=
  match xs with
  | [] => ret tt
  | x :: xs' => body x ;;; for_each xs' body
  end.

Definition succeeded {A} (r : outcome A) : Prop := ∃ a, result r = inr a.

(** ** [os], [open] and [print] *)

Definition print (line : string) : M unit := emit (EPrint line).

Module os.

Module path.

Definition join := posixpath.join.

(** [os.path.exists(p)] as a pure query on the filesystem. *)
Definition exists_in (fs : filesystem) (p : string) : bool :=
  match fs !! p with
  | Some _ => true
  | None => false
  end.

Definition isdir_in (fs : filesystem) (p : string) : bool :=
  match fs !! p with
  | Some NDir => true
  | _ => false
  end.

(** [os.path.exists(p)] as called by the script. *)
Definition exists_ (p : string) : M bool :=
  fs <- get_fs ;;
  let b := exists_in fs p in
  emit (EExists p b) ;;; ret b.

End path.

(** The directory that has to exist for an entry [p] to be created:
    the working directory and the root are always there. *)
Definition parent_check (fs : filesystem) (p : string) : option exn :=
  let d := posixpath.dirname p in
  if negb (posixpath.nonempty d) || posixpath.all_sep d then None
  else match fs !! d with
       | Some NDir => None
       | Some (NFile _ _) => Some (NotADirectoryError p)
       | None => Some (FileNotFoundError p)
       end.

(** [os.mkdir(p)] *)
Definition mkdir (p : string) : M unit :=
  fs <- get_fs ;;
  match fs !! p with
  | Some _ => raise (FileExistsError p)
  | None =>
      match parent_check fs p with
      | Some e => raise e
      | None => put_fs (<[p := NDir]> fs) ;;; emit (EMkdir p)
      end
  end.

(** [os.makedirs(name, exist_ok=exist_ok)], CPython's recursion on the
    head of the path; [fuel] bounds the recursion depth. *)
Fixpoint makedirs_rec (fuel : nat) (name : string) (exist_ok : bool)
  : M unit :=
  let (head0, tail0) := posixpath.split name in
  let (head, tail) :=
    if posixpath.nonempty tail0 then (head0, tail0)
    else posixpath.split head0 in
  let create : M unit := λ fs,
    let r := mkdir name fs in
    match result r with
    | inl e =>
        if negb exist_ok || negb (path.isdir_in fs name) then r
        else Outcome (fs_after r) (events r) (inr tt)
    | inr _ => r
    end in
  fs <- get_fs ;;
  if posixpath.nonempty head && posixpath.nonempty tail
     && negb (path.exists_in fs head)
  then
    match fuel with
    | O => create
    | S fuel' =>
        except_FileExistsError_pass (makedirs_rec fuel' head exist_ok) ;;;
        if String.eqb tail "." then ret tt else create
    end
  else create.

Definition makedirs (name : string) (exist_ok : bool) : M unit :=
  makedirs_rec (String.length name) name exist_ok.

End os.

(** [with open(path, 'rb') as f: data = f.read()] *)
Definition read_bytes (path : string) : M (list byte) :=
  fs <- get_fs ;;
  match fs !! path with
  | None => raise (FileNotFoundError path)
  | Some NDir => raise (IsADirectoryError path)
  | Some (NFile mode data) =>
      if readable mode then emit (ERead path data) ;;; ret data
      else raise (PermissionError path)
  end.

(** [open(path, 'wb')]: truncates an existing file or creates a new one;
    the answer is the mode of the open file. *)
Definition open_wb (path : string) : M file_mode :=
  fs <- get_fs ;;
  match fs !! path with
  | Some NDir => raise (IsADirectoryError path)
  | Some (NFile mode _) =>
      if writable mode then put_fs (<[path := NFile mode []]> fs) ;;; ret mode
      else raise (PermissionError path)
  | None =>
      match os.parent_check fs path with
      | Some e => raise e
      | None =>
          put_fs (<[path := NFile new_file_mode []]> fs) ;;; ret new_file_mode
      end
  end.

(** [f.write(data)] and the close at the end of the [with] block. *)
Definition file_write (path : string) (mode : file_mode) (data : list byte)
  : M unit :=
  fs <- get_fs ;;
  put_fs (<[path := NFile mode data]> fs) ;;; emit (EWrite path data).

(** [with open(path, 'wb') as f: f.write(data)] *)
Definition write_bytes (path : string) (data : list byte) : M unit :=
  mode <- open_wb path ;;
  file_write path mode data.

(** ** The script *)

Definition input_dir : string := "public".
Definition output_dir : string := "public/transparent".

Definition icons : list string :=
  [ "set1_silent.png";
    "set1_listening.png";
    "set1_speaking.png" ].

Definition input_path_of (icon : string) : string :=
  os.path.join input_dir icon.

Definition output_path_of (icon : string) : string :=
  os.path.join output_dir icon.

Definition msg_processing (input_path : string) : string :=
  "Processing: " +:+ input_path.

Definition msg_saved (output_path : string) : string :=
  "✅ Saved: " +:+ output_path.

Definition msg_not_found (input_path : string) : string :=
  "⚠️  File not found: " +:+ input_path.

Section Script.

(** [rembg.remove]: [inl msg] when the call raises. *)
Variable remove : list byte → string + list byte.

Definition call_remove (data : list byte) : M (list byte) :=
  emit (ERemove data) ;;;
  match remove data with
  | inl msg => raise (RembgError msg)
  | inr out => ret out
  end.

Definition remove_background (input_path output_path : string) : M unit :=
  print (msg_processing input_path) ;;;
  input_data <- read_bytes input_path ;;
  output_data <- call_remove input_data ;;
  write_bytes output_path output_data ;;;
  print (msg_saved output_path).

(** The body of [for icon in icons:] in [main]. *)
Definition main_loop_body (icon : string) : M unit :=
  let input_path := os.path.join input_dir icon in
  let output_path := os.path.join output_dir icon in
  found <- os.path.exists_ input_path ;;
  if found then remove_background input_path output_path
  else print (msg_not_found input_path).

Definition main : M unit :=
  os.makedirs output_dir true ;;;
  print "🦜 Kea Icon Background Removal" ;;;
  print (str_mul "=" 50) ;;;
  print ("Input:  " +:+ input_dir +:+ "/") ;;;
  print ("Output: " +:+ output_dir +:+ "/") ;;;
  print (str_mul "=" 50) ;;;
  for_each icons main_loop_body ;;;
  print (str_mul "=" 50) ;;;
  print "✨ Background removal complete!" ;;;
  print ("Transparent icons saved to: " +:+ output_dir +:+ "/").

End Script.


(** ** Vocabulary of the statements *)

(** What [open(path, 'wb')] answers in [fs]: the exception it raises, or the
    mode of the file it opens. *)
Definition open_target (fs : filesystem) (path : string) : exn + file_mode :=
  match fs !! path with
  | Some NDir => inl (IsADirectoryError path)
  | Some (NFile mode _) =>
      if writable mode then inr mode else inl (PermissionError path)
  | None =>
      match os.parent_check fs path with
      | Some e => inl e
      | None => inr new_file_mode
      end
  end.

(** The four observations that open the processing of an existing icon. *)
Definition events_until_remove (icon : string) (data : list byte)
  : list event :=
  [ EExists (input_path_of icon) true;
    EPrint (msg_processing (input_path_of icon));
    ERead (input_path_of icon) data;
    ERemove data ].

(** The paths whose existence was tested, in the order of the tests. *)
Definition checked_paths (t : list event) : list string :=
  omap (λ e, match e with EExists p _ => Some p | _ => None end) t.

(** The path an exception is about; the capability's error has none. *)
Definition exn_path (e : exn) : option string :=
  match e with
  | FileNotFoundError p | FileExistsError p | IsADirectoryError p
  | NotADirectoryError p | PermissionError p => Some p
  | RembgError _ => None
  end.

(** An input path that [os.path.exists] accepts and [open(_, 'rb')] refuses. *)
Definition exists_unreadable (fs : filesystem) (p : string) : Prop :=
  fs !! p = Some NDir ∨
  ∃ mode data, fs !! p = Some (NFile mode data) ∧ readable mode = false.

(** The loop body in closed form: what one pass over [icon] does in [fs]. *)
Definition loop_body_outcome (remove : list byte → string + list byte)
    (icon : string) (fs : filesystem) : outcome unit :=
  let ip := input_path_of icon in
  let op := output_path_of icon in
  match fs !! ip with
  | None => Outcome fs [EExists ip false; EPrint (msg_not_found ip)] (inr tt)
  | Some NDir =>
      Outcome fs [EExists ip true; EPrint (msg_processing ip)]
        (inl (IsADirectoryError ip))
  | Some (NFile mode data) =>
      if readable mode then
        match remove data with
        | inl msg =>
            Outcome fs (events_until_remove icon data) (inl (RembgError msg))
        | inr out =>
            match open_target fs op with
            | inl e => Outcome fs (events_until_remove icon data) (inl e)
            | inr mode' =>
                Outcome (<[op := NFile mode' out]> fs)
                  (events_until_remove icon data ++
                   [EWrite op out; EPrint (msg_saved op)])
                  (inr tt)
            end
        end
      else
        Outcome fs [EExists ip true; EPrint (msg_processing ip)]
          (inl (PermissionError ip))
  end.

(** [os.makedirs("public/transparent", exist_ok=True)] in closed form. *)
Definition makedirs_outcome (fs : filesystem) : outcome unit :=
  match fs !! input_dir, fs !! output_dir with
  | None, None =>
      Outcome (<[output_dir := NDir]> (<[input_dir := NDir]> fs))
        [EMkdir input_dir; EMkdir output_dir] (inr tt)
  | None, Some NDir =>
      Outcome (<[input_dir := NDir]> fs) [EMkdir input_dir] (inr tt)
  | None, Some (NFile _ _) =>
      Outcome (<[input_dir := NDir]> fs) [EMkdir input_dir]
        (inl (FileExistsError output_dir))
  | Some NDir, None =>
      Outcome (<[output_dir := NDir]> fs) [EMkdir output_dir] (inr tt)
  | Some (NFile _ _), None => Outcome fs [] (inl (NotADirectoryError output_dir))
  | Some _, Some NDir => Outcome fs [] (inr tt)
  | Some _, Some (NFile _ _) => Outcome fs [] (inl (FileExistsError output_dir))
  end.

(** The banner and the closing lines of [main]. *)
Definition banner : list event :=
  [ EPrint "🦜 Kea Icon Background Removal";
    EPrint (str_mul "=" 50);
    EPrint "Input:  public/";
    EPrint "Output: public/transparent/";
    EPrint (str_mul "=" 50) ].

Definition closing : list event :=
  [ EPrint (str_mul "=" 50);
    EPrint "✨ Background removal complete!";
    EPrint "Transparent icons saved to: public/transparent/" ].


(** [main] in closed form, in terms of the loop. *)
Definition main_outcome (remove : list byte → string + list byte)
    (fs : filesystem) : outcome unit :=
  let r0 := os.makedirs output_dir true fs in
  match result r0 with
  | inl e => Outcome (fs_after r0) (events r0) (inl e)
  | inr _ =>
      let r1 := for_each icons (main_loop_body remove) (fs_after r0) in
      Outcome (fs_after r1)
        (events r0 ++ banner ++ events r1 ++
         match result r1 with inl _ => [] | inr _ => closing end)
        (result r1)
  end.

(** The observations that name the paths of [icon]: its existence test, its
    read, its write and its three messages.  The call of the capability
    carries bytes only and belongs to the pass in which it occurs. *)
Definition own (icon : string) (e : event) : Prop :=
  match e with
  | EExists p _ | ERead p _ => p = input_path_of icon
  | EWrite p _ => p = output_path_of icon
  | EPrint line =>
      line = msg_not_found (input_path_of icon) ∨
      line = msg_processing (input_path_of icon) ∨
      line = msg_saved (output_path_of icon)
  | EMkdir _ | ERemove _ => False
  end.

(** ** Sample data *)

(** A capability that refuses an empty input and otherwise answers the
    bytes in reverse order. *)
Definition sample_remove (data : list byte) : string + list byte :=
  match data with
  | [] => inl "empty image"
  | _ => inr (rev data)
  end.

Definition read_write : file_mode := FileMode true true.

(** [public/] holds the first and the third icon. *)
Definition sample_fs : filesystem :=
  <["public/set1_silent.png" := NFile read_write [x01; x02; x03]]>
  (<["public/set1_speaking.png" := NFile read_write [x04; x05]]>
  (<["public" := NDir]> ∅)).

(** As [sample_fs], with an empty second icon: the capability raises on it. *)
Definition sample_fs_empty_icon : filesystem :=
  <["public/set1_listening.png" := NFile read_write []]> sample_fs.

(** As [sample_fs], with a directory under the name of the second icon. *)
Definition sample_fs_dir_icon : filesystem :=
  <["public/set1_listening.png" := NDir]> sample_fs.

(** As [sample_fs], with the output directory already there. *)
Definition sample_fs_ready : filesystem :=
  <["public/transparent" := NDir]> sample_fs.

(** ** Vocabulary for whole transcripts *)

(** The lines printed, the paths written, the bytes read and the bytes
    handed to the capability, each in the order of the observations. *)
Definition printed_lines (t : list event) : list string :=
  omap (λ e, match e with EPrint line => Some line | _ => None end) t.

Definition written_paths (t : list event) : list string :=
  omap (λ e, match e with EWrite p _ => Some p | _ => None end) t.

Definition read_data (t : list event) : list (list byte) :=
  omap (λ e, match e with ERead _ d => Some d | _ => None end) t.

Definition removed_data (t : list event) : list (list byte) :=
  omap (λ e, match e with ERemove d => Some d | _ => None end) t.

(** What the loop prints for one icon in a run that returns normally, and
    the path it writes, as decided by the existence of the input path. *)
Definition icon_lines (fs : filesystem) (icon : string) : list string :=
  if os.path.exists_in fs (input_path_of icon)
  then [msg_processing (input_path_of icon);
        msg_saved (output_path_of icon)]
  else [msg_not_found (input_path_of icon)].

Definition icon_writes (fs : filesystem) (icon : string) : list string :=
  if os.path.exists_in fs (input_path_of icon)
  then [output_path_of icon] else [].

(** [public] is a regular file: the output directory cannot be created. *)
Definition sample_fs_public_is_file : filesystem :=
  <["public" := NFile read_write [x2a]]> ∅.

(** A regular file stands where the output directory should be. *)
Definition sample_fs_transparent_is_file : filesystem :=
  <["public/transparent" := NFile read_write []]> sample_fs.

(** One readable and writable file, to be converted in place. *)
Definition sample_fs_single : filesystem :=
  <["icon.png" := NFile read_write [x01; x02; x03]]> ∅.

(** * Properties *)

(** ** Paths *)

Section PathFacts.
Import posixpath.

Lemma rsplit_after_sep (a b : string) :
  nonempty (fst (rsplit (a +:+ String "/" b))) = true ∧
  snd (rsplit (a +:+ String "/" b)) = snd (rsplit b).
Proof.
  induction a as [|c a [IHh IHt]]; simpl.
  - destruct (rsplit b) as [h t]. rewrite orb_true_r. done.
  - destruct (rsplit (a +:+ String "/" b)) as [h t]. simpl in *.
    rewrite IHh. done.
Qed.

Lemma basename_after_sep (a b : string) :
  basename (a +:+ String "/" b) = basename b.
Proof. unfold basename. apply rsplit_after_sep. Qed.

Lemma endswith_sep_inv (a : string) :
  endswith_sep a = true → ∃ a', a = a' +:+ "/".
Proof.
  induction a as [|c a IH]; simpl; [done|].
  destruct a as [|c' a].
  - unfold is_sep. intros ->%Ascii.eqb_eq. by exists "".
  - intros [a' ->]%IH. by exists (String c a').
Qed.

Lemma app_assoc_sep (a b : string) : (a +:+ "/") +:+ b = a +:+ String "/" b.
Proof.
  induction a as [|c a IH]; [done|].
  change (String c ((a +:+ "/") +:+ b) = String c (a +:+ String "/" b)).
  by f_equal.
Qed.

(** The leaf of a joined path is the leaf of the joined component,
    whatever the directory. *)
Lemma basename_join (dir leaf : string) :
  basename (join dir leaf) = basename leaf.
Proof.
  unfold join. destruct (startswith_sep leaf); [done|].
  destruct (nonempty dir) eqn:Hd; simpl.
  - destruct (endswith_sep dir) eqn:He.
    + apply endswith_sep_inv in He as [a' ->].
      rewrite app_assoc_sep. apply basename_after_sep.
    + apply basename_after_sep.
  - by destruct dir.
Qed.

End PathFacts.

(** ** The monad *)

Lemma outcome_eta {A} (r : outcome A) :
  Outcome (fs_after r) (events r) (result r) = r.
Proof. by destruct r. Qed.

Lemma bind_inr {A B} (m : M A) (k : A → M B) fs a :
  result (m fs) = inr a →
  bind m k fs =
    Outcome (fs_after (k a (fs_after (m fs))))
            (events (m fs) ++ events (k a (fs_after (m fs))))
            (result (k a (fs_after (m fs)))).
Proof. unfold bind. by intros ->. Qed.

Lemma bind_inl {A B} (m : M A) (k : A → M B) fs e :
  result (m fs) = inl e →
  bind m k fs = Outcome (fs_after (m fs)) (events (m fs)) (inl e).
Proof. unfold bind. by intros ->. Qed.

Lemma for_each_cons {A} (x : A) xs body fs :
  for_each (x :: xs) body fs = bind (body x) (λ _, for_each xs body) fs.
Proof. done. Qed.

Lemma for_each_app {A} (xs ys : list A) body fs :
  for_each (xs ++ ys) body fs =
  bind (for_each xs body) (λ _, for_each ys body) fs.
Proof.
  revert fs. induction xs as [|x xs IH]; intros fs.
  - simpl. unfold bind, ret. simpl. by rewrite outcome_eta.
  - simpl. unfold bind.
    destruct (result (body x fs)) as [e|[]]; simpl; [done|].
    rewrite IH. unfold bind.
    destruct (result (for_each xs body (fs_after (body x fs)))); simpl;
      [done|]. by rewrite app_assoc.
Qed.

(** ** The operations in closed form *)

Section ClosedForms.
Variable remove : list byte → string + list byte.

Lemma open_wb_eq path fs :
  open_wb path fs =
  match open_target fs path with
  | inl e => Outcome fs [] (inl e)
  | inr mode => Outcome (<[path := NFile mode []]> fs) [] (inr mode)
  end.
Proof.
  unfold open_wb, open_target, bind, get_fs; simpl.
  destruct (fs !! path) as [[mode c|]|]; simpl; [|done|].
  - by destruct (writable mode).
  - by destruct (os.parent_check fs path).
Qed.

Lemma write_bytes_eq path data fs :
  write_bytes path data fs =
  match open_target fs path with
  | inl e => Outcome fs [] (inl e)
  | inr mode => Outcome (<[path := NFile mode data]> fs) [EWrite path data] (inr tt)
  end.
Proof.
  unfold write_bytes, bind. rewrite open_wb_eq.
  destruct (open_target fs path) as [e|mode]; simpl; [done|].
  by rewrite insert_insert_eq.
Qed.

Lemma main_loop_body_eq icon fs :
  main_loop_body remove icon fs = loop_body_outcome remove icon fs.
Proof.
  unfold main_loop_body, loop_body_outcome, remove_background.
  fold (input_path_of icon) (output_path_of icon).
  unfold os.path.exists_, read_bytes, call_remove, print, emit, get_fs, ret,
    raise, bind, os.path.exists_in; simpl.
  destruct (fs !! input_path_of icon) as [[mode data|]|] eqn:Hin; simpl;
    [| |done].
  - rewrite Hin. destruct (readable mode); simpl; [|done].
    destruct (remove data) as [msg|out]; simpl; [done|].
    rewrite write_bytes_eq.
    by destruct (open_target fs (output_path_of icon)).
  - by rewrite Hin.
Qed.

Lemma makedirs_eq fs : os.makedirs output_dir true fs = makedirs_outcome fs.
Proof.
  unfold makedirs_outcome.
  change (os.makedirs output_dir true) with
    (os.makedirs_rec 18 output_dir true).
  unfold os.makedirs_rec at 1.
  change (posixpath.split output_dir) with (input_dir, "transparent").
  cbv iota beta. simpl posixpath.nonempty. cbv iota.
  unfold bind at 1. simpl. unfold os.path.exists_in.
  destruct (fs !! input_dir) as [nd|] eqn:Hp; simpl.
  - unfold os.mkdir, bind; simpl.
    destruct (fs !! output_dir) as [[m c|]|] eqn:Ho; simpl.
    + unfold os.path.isdir_in. rewrite Ho. simpl. by destruct nd.
    + unfold os.path.isdir_in. rewrite Ho. simpl. by destruct nd.
    + unfold os.parent_check.
      change (posixpath.dirname output_dir) with input_dir. simpl.
      rewrite Hp. destruct nd; simpl; [|done].
      unfold os.path.isdir_in. by rewrite Ho.
  - unfold bind, except_FileExistsError_pass, os.mkdir, bind; simpl.
    rewrite Hp. simpl.
    rewrite lookup_insert_ne by done.
    destruct (fs !! output_dir) as [[m c|]|] eqn:Ho; simpl.
    + unfold os.path.isdir_in. rewrite lookup_insert_ne by done.
      by rewrite Ho.
    + unfold os.path.isdir_in. rewrite lookup_insert_ne by done.
      by rewrite Ho.
    + unfold os.parent_check.
      change (posixpath.dirname output_dir) with input_dir. simpl.
      by rewrite lookup_insert_eq.
Qed.
End ClosedForms.

(** ** The configured paths *)

Lemma elem_of_icons (n : string) :
  n ∈ icons →
  n = "set1_silent.png" ∨ n = "set1_listening.png" ∨ n = "set1_speaking.png".
Proof. unfold icons. rewrite !elem_of_cons, elem_of_nil. tauto. Qed.

Ltac icon_cases H :=
  apply elem_of_icons in H as [-> | [-> | ->]].

Lemma NoDup_icons : NoDup icons.
Proof. apply (bool_decide_unpack (NoDup icons)). by vm_compute. Qed.

Lemma input_output_disjoint n m :
  n ∈ icons → m ∈ icons → input_path_of n ≠ output_path_of m.
Proof. intros Hn Hm. icon_cases Hn; icon_cases Hm; by vm_compute. Qed.

Lemma output_path_inj n m :
  n ∈ icons → m ∈ icons → output_path_of n = output_path_of m → n = m.
Proof. intros Hn Hm. icon_cases Hn; icon_cases Hm; by vm_compute. Qed.

Lemma input_path_inj n m :
  n ∈ icons → m ∈ icons → input_path_of n = input_path_of m → n = m.
Proof. intros Hn Hm. icon_cases Hn; icon_cases Hm; by vm_compute. Qed.

Lemma paths_not_dirs n :
  n ∈ icons →
  input_path_of n ≠ input_dir ∧ input_path_of n ≠ output_dir ∧
  output_path_of n ≠ input_dir ∧ output_path_of n ≠ output_dir.
Proof. intros Hn. icon_cases Hn; by vm_compute. Qed.

Lemma output_parent n :
  n ∈ icons → posixpath.dirname (output_path_of n) = output_dir.
Proof. intros Hn. icon_cases Hn; by vm_compute. Qed.

Lemma own_exclusive n m e :
  n ∈ icons → m ∈ icons → own n e → own m e → n = m.
Proof.
  intros Hn Hm. destruct e as [p|p b|p d|d|p d|line]; simpl; try done.
  - intros -> ?. by apply input_path_inj.
  - intros -> ?. by apply input_path_inj.
  - intros -> ?. by apply output_path_inj.
  - icon_cases Hn; icon_cases Hm; try done;
      intros [-> | [-> | ->]] [H | [H | H]]; by vm_compute in H.
Qed.

(** ** One pass of the loop body *)

Section LoopFacts.
Variable remove : list byte → string + list byte.

Lemma open_target_writable fs p mode :
  open_target fs p = inr mode → writable mode = true.
Proof.
  unfold open_target. destruct (fs !! p) as [[m c|]|]; [|done|].
  - destruct (writable m) eqn:Hw; [|done]. by intros [= <-].
  - destruct (os.parent_check fs p); [done|]. by intros [= <-].
Qed.

Lemma body_frame icon fs p :
  p ≠ output_path_of icon →
  fs_after (main_loop_body remove icon fs) !! p = fs !! p.
Proof.
  intros Hp. rewrite main_loop_body_eq. unfold loop_body_outcome.
  destruct (fs !! input_path_of icon) as [[mode data|]|]; [|done|done].
  destruct (readable mode); [|done].
  destruct (remove data); [done|].
  destruct (open_target fs (output_path_of icon)); [done|].
  simpl. by rewrite lookup_insert_ne.
Qed.

Lemma body_missing icon fs :
  fs !! input_path_of icon = None →
  main_loop_body remove icon fs =
  Outcome fs [EExists (input_path_of icon) false;
              EPrint (msg_not_found (input_path_of icon))] (inr tt).
Proof. intros H. rewrite main_loop_body_eq. unfold loop_body_outcome. by rewrite H. Qed.

(** A pass that returns normally either skipped a missing icon or wrote
    the capability's answer. *)
Lemma body_ok_inv icon fs u :
  result (main_loop_body remove icon fs) = inr u →
  fs !! input_path_of icon = None ∨
  ∃ mode data out mode',
    fs !! input_path_of icon = Some (NFile mode data) ∧
    readable mode = true ∧ remove data = inr out ∧
    open_target fs (output_path_of icon) = inr mode' ∧
    main_loop_body remove icon fs =
      Outcome (<[output_path_of icon := NFile mode' out]> fs)
        (events_until_remove icon data ++
         [EWrite (output_path_of icon) out;
          EPrint (msg_saved (output_path_of icon))])
        (inr tt).
Proof.
  rewrite main_loop_body_eq. unfold loop_body_outcome.
  destruct (fs !! input_path_of icon) as [[mode data|]|]; [|done|by left].
  destruct (readable mode) eqn:Hr; [|done].
  destruct (remove data) as [msg|out] eqn:Hrm; [done|].
  destruct (open_target fs (output_path_of icon)) as [e|mode'] eqn:Ho;
    [done|].
  intros _. right. by exists mode, data, out, mode'.
Qed.

Lemma body_events_own icon fs e :
  e ∈ events (main_loop_body remove icon fs) →
  own icon e ∨ ∃ d, e = ERemove d.
Proof.
  rewrite main_loop_body_eq. unfold loop_body_outcome, events_until_remove.
  destruct (fs !! input_path_of icon) as [[mode data|]|];
    [destruct (readable mode);
       [destruct (remove data);
          [|destruct (open_target fs (output_path_of icon))]|]| |];
    simpl; rewrite ?elem_of_cons, elem_of_nil;
    intros H; destruct_or!; subst e; simpl; eauto.
Qed.

(** A pass changes at most its own output path, and only by a write. *)
Lemma body_changed icon fs p :
  fs_after (main_loop_body remove icon fs) !! p = fs !! p ∨
  p = output_path_of icon ∧
  ∃ out, EWrite p out ∈ events (main_loop_body remove icon fs).
Proof.
  destruct (decide (p = output_path_of icon)) as [->|Hne];
    [|left; by apply body_frame].
  rewrite main_loop_body_eq. unfold loop_body_outcome.
  destruct (fs !! input_path_of icon) as [[mode data|]|]; [|by left..].
  destruct (readable mode); [|by left].
  destruct (remove data) as [|out]; [by left|].
  destruct (open_target fs (output_path_of icon)); [by left|].
  right. split; [done|]. exists out. simpl. set_solver.
Qed.

(** Every write of a pass is the last step before its closing message and
    leaves the written bytes at the output path. *)
Lemma body_write_inv icon fs p out :
  EWrite p out ∈ events (main_loop_body remove icon fs) →
  p = output_path_of icon ∧
  result (main_loop_body remove icon fs) = inr tt ∧
  (∃ mode,
     fs_after (main_loop_body remove icon fs) !! p = Some (NFile mode out)) ∧
  ∃ data, ERead (input_path_of icon) data
            ∈ events (main_loop_body remove icon fs) ∧
          remove data = inr out.
Proof.
  rewrite main_loop_body_eq. unfold loop_body_outcome, events_until_remove.
  destruct (fs !! input_path_of icon) as [[mode data|]|];
    [destruct (readable mode);
       [destruct (remove data) eqn:Hrm;
          [|destruct (open_target fs (output_path_of icon)) as [|mode']]|]| |];
    simpl; rewrite ?elem_of_cons, elem_of_nil;
    intros H; destruct_or!; simplify_eq.
  split; [done|]. split; [done|]. split.
  - exists mode'. by rewrite lookup_insert_eq.
  - exists data. split; [|done]. do 2 right. left.
Qed.

(** The outcome of a pass depends on three entries of the filesystem only:
    the input path, the output path and the output directory. *)
Lemma body_result_agree icon fs1 fs2 :
  icon ∈ icons →
  fs1 !! input_path_of icon = fs2 !! input_path_of icon →
  fs1 !! output_path_of icon = fs2 !! output_path_of icon →
  fs1 !! output_dir = fs2 !! output_dir →
  result (main_loop_body remove icon fs1) =
  result (main_loop_body remove icon fs2) ∧
  events (main_loop_body remove icon fs1) =
  events (main_loop_body remove icon fs2).
Proof.
  intros Hi Hin Hout Hdir. rewrite !main_loop_body_eq.
  unfold loop_body_outcome. rewrite Hin.
  assert (open_target fs1 (output_path_of icon) =
          open_target fs2 (output_path_of icon)) as ->.
  { unfold open_target, os.parent_check. rewrite Hout, (output_parent _ Hi).
    change (negb (posixpath.nonempty output_dir) || posixpath.all_sep output_dir)
      with false. cbv iota. by rewrite Hdir. }
  destruct (fs2 !! input_path_of icon) as [[mode data|]|]; [|done|done].
  destruct (readable mode); [|done].
  destruct (remove data); [done|].
  by destruct (open_target fs2 (output_path_of icon)).
Qed.

End LoopFacts.

(** ** The loop *)

Ltac outcome_simpl := cbn [fs_after events result].

Section Loop.
Variable remove : list byte → string + list byte.

Lemma loop_cons n l fs :
  for_each (n :: l) (main_loop_body remove) fs =
  let r := main_loop_body remove n fs in
  match result r with
  | inl e => Outcome (fs_after r) (events r) (inl e)
  | inr _ =>
      let r' := for_each l (main_loop_body remove) (fs_after r) in
      Outcome (fs_after r') (events r ++ events r') (result r')
  end.
Proof. done. Qed.

Lemma loop_frame l fs p :
  (∀ n, n ∈ l → p ≠ output_path_of n) →
  fs_after (for_each l (main_loop_body remove) fs) !! p = fs !! p.
Proof.
  revert fs. induction l as [|n l IH]; intros fs Hp; [done|].
  rewrite loop_cons. cbv zeta.
  destruct (result (main_loop_body remove n fs)); outcome_simpl.
  - apply body_frame, Hp. left.
  - rewrite IH by (intros; apply Hp; by right).
    apply body_frame, Hp. left.
Qed.

Lemma loop_events_own l fs e :
  e ∈ events (for_each l (main_loop_body remove) fs) →
  (∃ n, n ∈ l ∧ own n e) ∨ ∃ d, e = ERemove d.
Proof.
  revert fs. induction l as [|n l IH]; intros fs; [by intros ?%elem_of_nil|].
  rewrite loop_cons. cbv zeta.
  assert (∀ n', n' ∈ l → n' ∈ n :: l) as Hr by (intros; by right).
  destruct (result (main_loop_body remove n fs)); outcome_simpl.
  - intros [?|?]%body_events_own; [left; exists n; split; [left|done]|by right].
  - rewrite elem_of_app.
    intros [[?|?]%body_events_own|[(n' & ? & ?)|?]%IH]; eauto.
    left; exists n; split; [left|done].
Qed.

(** The loop changes an entry only by writing an output path. *)
Lemma loop_changed l fs p :
  fs_after (for_each l (main_loop_body remove) fs) !! p = fs !! p ∨
  ∃ n out, n ∈ l ∧ p = output_path_of n ∧
    EWrite p out ∈ events (for_each l (main_loop_body remove) fs).
Proof.
  revert fs. induction l as [|n l IH]; intros fs; [by left|].
  rewrite loop_cons. cbv zeta.
  destruct (body_changed remove n fs p) as [Hb|[-> [out Hw]]].
  - destruct (result (main_loop_body remove n fs)); outcome_simpl; [by left|].
    destruct (IH (fs_after (main_loop_body remove n fs)))
      as [->|(n' & out & ? & ? & ?)]; [by left|].
    right. exists n', out. split; [by right|]. split; [done|].
    apply elem_of_app. by right.
  - right. exists n, out. split; [left|]. split; [done|].
    destruct (result (main_loop_body remove n fs)); outcome_simpl; [done|].
    apply elem_of_app. by left.
Qed.

(** Running the loop over [pre ++ n :: post]: first [pre], then [n], then
    [post], each from the filesystem the previous part left. *)
Lemma loop_split pre n post fs u :
  result (for_each pre (main_loop_body remove) fs) = inr u →
  for_each (pre ++ n :: post) (main_loop_body remove) fs =
  let r1 := for_each pre (main_loop_body remove) fs in
  let r2 := main_loop_body remove n (fs_after r1) in
  match result r2 with
  | inl e => Outcome (fs_after r2) (events r1 ++ events r2) (inl e)
  | inr _ =>
      let r3 := for_each post (main_loop_body remove) (fs_after r2) in
      Outcome (fs_after r3) (events r1 ++ events r2 ++ events r3) (result r3)
  end.
Proof.
  intros H1. rewrite for_each_app. unfold bind at 1. rewrite H1.
  rewrite loop_cons. cbv zeta.
  by destruct (result (main_loop_body remove n
    (fs_after (for_each pre (main_loop_body remove) fs)))).
Qed.

Lemma loop_split_err pre post fs e :
  result (for_each pre (main_loop_body remove) fs) = inl e →
  for_each (pre ++ post) (main_loop_body remove) fs =
  for_each pre (main_loop_body remove) fs.
Proof.
  intros H1. rewrite for_each_app. unfold bind. rewrite H1.
  rewrite <- H1. apply outcome_eta.
Qed.

(** An observation that names the paths of [n] was made in the pass over
    [n], and the passes before it returned normally. *)
Lemma loop_reach (pre : list string) n post fs e :
  icons = pre ++ n :: post →
  e ∈ events (for_each icons (main_loop_body remove) fs) →
  own n e →
  result (for_each pre (main_loop_body remove) fs) = inr tt ∧
  e ∈ events (main_loop_body remove n
                (fs_after (for_each pre (main_loop_body remove) fs))).
Proof.
  intros Hsplit He Hown.
  pose proof NoDup_icons as Hnd. rewrite Hsplit in Hnd.
  apply NoDup_app in Hnd as (_ & Hpre & [Hpost _]%NoDup_cons).
  assert (n ∈ icons) as Hn
    by (rewrite Hsplit; apply elem_of_app; right; left).
  assert (∀ m l, m ∈ l → l ⊆ icons → own m e → m = n) as Hexcl.
  { intros m l Hm Hl Hm'. apply (own_exclusive m n e); auto. }
  assert (∀ l fs', l ⊆ icons → n ∉ l →
            e ∉ events (for_each l (main_loop_body remove) fs')) as Hnot.
  { intros l fs' Hl Hnl [(m & Hm & Hm')|[d ->]]%loop_events_own; [|done].
    apply Hnl. by rewrite <- (Hexcl m l). }
  assert (pre ⊆ icons) as Hsub1
    by (intros x Hx; rewrite Hsplit; apply elem_of_app; by left).
  assert (post ⊆ icons) as Hsub2
    by (intros x Hx; rewrite Hsplit; apply elem_of_app; right; by right).
  rewrite Hsplit in He.
  destruct (result (for_each pre (main_loop_body remove) fs))
    as [err|[]] eqn:H1.
  - rewrite (loop_split_err _ _ _ _ H1) in He.
    destruct (Hnot pre fs Hsub1 (λ H, Hpre n H ltac:(left)) He).
  - rewrite (loop_split _ _ _ _ _ H1) in He. cbv zeta in He.
    split; [done|].
    destruct (result (main_loop_body remove n _)); cbn [fs_after events result] in He;
      rewrite ?elem_of_app in He; destruct_or!; try done.
    + destruct (Hnot pre fs Hsub1 (λ H, Hpre n H ltac:(left)) He).
    + destruct (Hnot pre fs Hsub1 (λ H, Hpre n H ltac:(left)) He).
    + destruct (Hnot post _ Hsub2 Hpost He).
Qed.

End Loop.

(** ** Whole runs of the loop over configured icons *)

Section Runs.
Variable remove : list byte → string + list byte.

Lemma sublist_icons_cons n (l : list string) :
  n :: l ⊆ icons → n ∈ icons ∧ l ⊆ icons.
Proof.
  intros H. split; [apply H; left|]. intros x Hx. apply H. by right.
Qed.

(** After a loop that returned normally, every icon that existed has its
    output, made of the capability's answer to its bytes. *)
Lemma loop_ok_outputs l fs u :
  l ⊆ icons → NoDup l →
  result (for_each l (main_loop_body remove) fs) = inr u →
  ∀ n, n ∈ l → is_Some (fs !! input_path_of n) →
  ∃ mode data out mode',
    fs !! input_path_of n = Some (NFile mode data) ∧
    readable mode = true ∧ remove data = inr out ∧
    fs_after (for_each l (main_loop_body remove) fs) !! output_path_of n
      = Some (NFile mode' out) ∧
    writable mode' = true ∧
    EWrite (output_path_of n) out
      ∈ events (for_each l (main_loop_body remove) fs).
Proof.
  revert fs. induction l as [|n0 l IH]; intros fs Hsub Hnd Hok n Hn Hin.
  { by apply elem_of_nil in Hn. }
  apply sublist_icons_cons in Hsub as [Hn0 Hsub].
  apply NoDup_cons in Hnd as [Hfresh Hnd].
  rewrite loop_cons in Hok |- *. cbv zeta in *.
  destruct (result (main_loop_body remove n0 fs)) as [e|u0] eqn:Hb; [done|].
  outcome_simpl. cbn [result] in Hok.
  apply elem_of_cons in Hn as [->|Hn].
  - destruct (body_ok_inv _ _ _ _ Hb)
      as [Hnone|(mode & data & out & mode' & Hi & Hr & Hrm & Hot & Heq)].
    { rewrite Hnone in Hin. by destruct Hin. }
    exists mode, data, out, mode'. split_and!; try done.
    + rewrite loop_frame.
      * rewrite Heq. apply lookup_insert_eq.
      * intros m Hm Heqp. apply output_path_inj in Heqp; auto.
        by subst.
    + by eapply open_target_writable.
    + apply elem_of_app. left. rewrite Heq. cbn [events].
      apply elem_of_app. right. left.
  - assert (input_path_of n ≠ output_path_of n0) as Hne
      by (apply input_output_disjoint; auto).
    rewrite <- (body_frame remove n0 fs _ Hne) in Hin |- *.
    destruct (IH _ Hsub Hnd Hok n Hn Hin)
      as (mode & data & out & mode' & ? & ? & ? & ? & ? & ?).
    exists mode, data, out, mode'. split_and!; try done.
    apply elem_of_app. by right.
Qed.

(** Passes that return normally on their own return normally in a row. *)
Lemma loop_all_pass l fs :
  l ⊆ icons → NoDup l →
  (∀ j, j ∈ l → result (main_loop_body remove j fs) = inr tt) →
  result (for_each l (main_loop_body remove) fs) = inr tt.
Proof.
  revert fs. induction l as [|n0 l IH]; intros fs Hsub Hnd Hall; [done|].
  apply sublist_icons_cons in Hsub as [Hn0 Hsub].
  apply NoDup_cons in Hnd as [Hfresh Hnd].
  rewrite loop_cons. cbv zeta. rewrite Hall by left. outcome_simpl.
  apply IH; [done..|]. intros j Hj.
  rewrite <- (Hall j) by (by right).
  assert (j ≠ n0) as Hjn by (by intros ->).
  apply body_result_agree; [auto|apply body_frame..].
  - apply input_output_disjoint; auto.
  - intros Heq. apply output_path_inj in Heq; auto.
  - intros Heq. by apply (paths_not_dirs n0 Hn0).
Qed.

(** A loop that returned normally from [fsA] returns normally, with the
    same observations and without changing anything, from any filesystem
    that holds the same inputs and already holds its outputs. *)
Lemma loop_rerun l fsA fsB u :
  l ⊆ icons → NoDup l →
  result (for_each l (main_loop_body remove) fsA) = inr u →
  (∀ n, n ∈ l → fsB !! input_path_of n = fsA !! input_path_of n) →
  (∀ n, n ∈ l →
     fsB !! output_path_of n =
     fs_after (for_each l (main_loop_body remove) fsA) !! output_path_of n) →
  for_each l (main_loop_body remove) fsB =
  Outcome fsB (events (for_each l (main_loop_body remove) fsA)) (inr tt).
Proof.
  revert fsA. induction l as [|n0 l IH]; intros fsA Hsub Hnd Hok Hin Hout;
    [done|].
  apply sublist_icons_cons in Hsub as [Hn0 Hsub].
  apply NoDup_cons in Hnd as [Hfresh Hnd].
  rewrite loop_cons in Hok, Hout. cbv zeta in Hok, Hout.
  rewrite (loop_cons _ n0 l fsA), (loop_cons _ n0 l fsB). cbv zeta.
  destruct (result (main_loop_body remove n0 fsA)) as [e|u0] eqn:Hb; [done|].
  cbn [fs_after events result] in Hok, Hout |- *.
  assert (∀ n, n ∈ l → n ∈ n0 :: l) as Hr by (intros; by right).
  destruct (body_ok_inv _ _ _ _ Hb)
    as [Hnone|(mode & data & out & mode' & Hi & Hrd & Hrm & Hot & Heq)].
  - rewrite (body_missing _ n0 fsA Hnone) in Hok, Hout |- *.
    rewrite body_missing by (rewrite Hin by left; done).
    cbn [fs_after events result] in Hok, Hout |- *.
    by rewrite (IH fsA Hsub Hnd Hok (λ n Hn, Hin n (Hr n Hn))
                  (λ n Hn, Hout n (Hr n Hn))).
  - rewrite Heq in Hok, Hout |- *. cbn [fs_after events result] in Hok, Hout |- *.
    assert (fsB !! output_path_of n0 = Some (NFile mode' out)) as HoB.
    { rewrite Hout by left. rewrite loop_frame; [apply lookup_insert_eq|].
      intros m Hm Heqp. apply output_path_inj in Heqp; auto. by subst. }
    assert (main_loop_body remove n0 fsB =
            Outcome fsB
              (events_until_remove n0 data ++
               [EWrite (output_path_of n0) out;
                EPrint (msg_saved (output_path_of n0))]) (inr tt)) as ->.
    { rewrite main_loop_body_eq. unfold loop_body_outcome.
      rewrite Hin by left. rewrite Hi, Hrd, Hrm.
      unfold open_target. rewrite HoB.
      rewrite (open_target_writable _ _ _ Hot). by rewrite insert_id. }
    cbn [fs_after events result].
    rewrite (IH (<[output_path_of n0:=NFile mode' out]> fsA)); auto.
    intros n Hn. rewrite Hin by auto.
    rewrite lookup_insert_ne; [done|].
    intros Heqp. symmetry in Heqp. revert Heqp.
    apply input_output_disjoint; auto.
Qed.

End Runs.

(** ** Creating the output directory *)

Lemma makedirs_frame fs p :
  p ≠ input_dir → p ≠ output_dir →
  fs_after (os.makedirs output_dir true fs) !! p = fs !! p.
Proof.
  intros H1 H2. rewrite makedirs_eq. unfold makedirs_outcome.
  destruct (fs !! input_dir) as [[]|], (fs !! output_dir) as [[]|];
    cbn [fs_after]; by rewrite ?lookup_insert_ne by done.
Qed.

(** [makedirs] only ever adds directories, and reports each one. *)
Lemma makedirs_changed fs p :
  fs_after (os.makedirs output_dir true fs) !! p = fs !! p ∨
  (p = input_dir ∨ p = output_dir) ∧ fs !! p = None ∧
  fs_after (os.makedirs output_dir true fs) !! p = Some NDir ∧
  EMkdir p ∈ events (os.makedirs output_dir true fs).
Proof.
  destruct (decide (p = input_dir)) as [->|H1];
    [|destruct (decide (p = output_dir)) as [->|H2];
      [|left; by apply makedirs_frame]];
    rewrite makedirs_eq; unfold makedirs_outcome;
    destruct (fs !! input_dir) as [[]|] eqn:Hi,
             (fs !! output_dir) as [[]|] eqn:Ho;
    cbn [fs_after events];
    rewrite ?lookup_insert_eq, ?(lookup_insert_ne _ input_dir output_dir),
            ?(lookup_insert_ne _ output_dir input_dir), ?lookup_insert_eq
      by done;
    try (left; done); right; split_and!; auto; set_solver.
Qed.

Lemma makedirs_ok fs u :
  result (os.makedirs output_dir true fs) = inr u →
  fs_after (os.makedirs output_dir true fs) !! output_dir = Some NDir ∧
  is_Some (fs_after (os.makedirs output_dir true fs) !! input_dir).
Proof.
  rewrite makedirs_eq. unfold makedirs_outcome.
  destruct (fs !! input_dir) as [[]|] eqn:Hi,
           (fs !! output_dir) as [[]|] eqn:Ho;
    cbn [fs_after result]; try done; intros _;
    rewrite ?lookup_insert_eq, ?(lookup_insert_ne _ input_dir output_dir),
            ?(lookup_insert_ne _ output_dir input_dir), ?lookup_insert_eq
      by done; rewrite ?Hi, ?Ho; eauto.
Qed.

Lemma makedirs_present fs :
  fs !! output_dir = Some NDir → is_Some (fs !! input_dir) →
  os.makedirs output_dir true fs = Outcome fs [] (inr tt).
Proof.
  intros Ho [nd Hi]. rewrite makedirs_eq. unfold makedirs_outcome.
  rewrite Hi, Ho. by destruct nd.
Qed.

Lemma makedirs_events_dirs fs e :
  e ∈ events (os.makedirs output_dir true fs) →
  e = EMkdir input_dir ∨ e = EMkdir output_dir.
Proof.
  rewrite makedirs_eq. unfold makedirs_outcome.
  destruct (fs !! input_dir) as [[]|], (fs !! output_dir) as [[]|];
    cbn [events]; rewrite ?elem_of_cons, elem_of_nil;
    intros H; destruct_or!; subst; auto; done.
Qed.

Lemma makedirs_events fs e :
  e ∈ events (os.makedirs output_dir true fs) → ∃ p, e = EMkdir p.
Proof.
  rewrite makedirs_eq. unfold makedirs_outcome.
  destruct (fs !! input_dir) as [[]|], (fs !! output_dir) as [[]|];
    cbn [events]; rewrite ?elem_of_cons, elem_of_nil;
    intros H; destruct_or!; subst; eauto; done.
Qed.

(** ** [main] in terms of its three phases *)

Lemma main_eq remove fs : main remove fs = main_outcome remove fs.
Proof.
  unfold main, main_outcome. unfold bind at 1. cbv zeta.
  destruct (result (os.makedirs output_dir true fs)) as [e|[]]; [done|].
  unfold print, emit, bind. cbn [fs_after events result].
  destruct (result (for_each icons (main_loop_body remove) _)) as [e|[]];
    cbn [fs_after events result]; by rewrite ?app_nil_r.
Qed.

(** ** Further facts about the loop *)

Section LoopOrder.
Variable remove : list byte → string + list byte.

Lemma checked_paths_app t1 t2 :
  checked_paths (t1 ++ t2) = checked_paths t1 ++ checked_paths t2.
Proof. unfold checked_paths. apply omap_app. Qed.

Lemma body_checked_paths icon fs :
  checked_paths (events (main_loop_body remove icon fs)) =
  [input_path_of icon].
Proof.
  rewrite main_loop_body_eq. unfold loop_body_outcome, events_until_remove.
  destruct (fs !! input_path_of icon) as [[mode data|]|]; [|done|done].
  destruct (readable mode); [|done].
  destruct (remove data); [done|].
  by destruct (open_target fs (output_path_of icon)).
Qed.

(** The existence tests follow the list; all of them are made when the
    loop returns normally. *)
Lemma loop_checked_paths l fs :
  checked_paths (events (for_each l (main_loop_body remove) fs))
    `prefix_of` (input_path_of <$> l) ∧
  (∀ u, result (for_each l (main_loop_body remove) fs) = inr u →
        checked_paths (events (for_each l (main_loop_body remove) fs))
        = input_path_of <$> l).
Proof.
  revert fs. induction l as [|n l IH]; intros fs; [done|].
  rewrite loop_cons. cbv zeta.
  destruct (result (main_loop_body remove n fs)) as [e|u0];
    cbn [fs_after events result].
  - rewrite body_checked_paths. split; [|done].
    by exists (input_path_of <$> l).
  - rewrite checked_paths_app, body_checked_paths.
    destruct (IH (fs_after (main_loop_body remove n fs))) as [Hp He].
    split.
    + by apply prefix_cons.
    + intros u Hu. rewrite fmap_cons. cbn [app]. f_equal. by eapply He.
Qed.

Lemma loop_error_from_pass l fs e :
  result (for_each l (main_loop_body remove) fs) = inl e →
  ∃ n fs', n ∈ l ∧ result (main_loop_body remove n fs') = inl e.
Proof.
  revert fs. induction l as [|n l IH]; intros fs; [done|].
  rewrite loop_cons. cbv zeta.
  destruct (result (main_loop_body remove n fs)) as [e'|u0] eqn:Hb;
    cbn [result].
  - intros [= ->]. exists n, fs. split; [left|done].
  - intros (n' & fs' & ? & ?)%IH. exists n', fs'. split; [by right|done].
Qed.

Lemma body_error_kinds icon fs e :
  result (main_loop_body remove icon fs) = inl e →
  ∀ p, e ≠ FileExistsError p.
Proof.
  rewrite main_loop_body_eq. unfold loop_body_outcome, open_target.
  destruct (fs !! input_path_of icon) as [[mode data|]|]; [| |done].
  - destruct (readable mode); [|by intros [= <-]].
    destruct (remove data); [by intros [= <-]|].
    destruct (fs !! output_path_of icon) as [[m c|]|].
    + destruct (writable m); [done|by intros [= <-]].
    + by intros [= <-].
    + unfold os.parent_check.
      destruct (_ || _); [done|].
      destruct (fs !! _) as [[]|]; [|done|]; by intros [= <-].
  - by intros [= <-].
Qed.

(** The observations of the pass over [n] are part of the loop's. *)
Lemma loop_pass_events (pre : list string) n post fs u e :
  result (for_each pre (main_loop_body remove) fs) = inr u →
  e ∈ events (main_loop_body remove n
                (fs_after (for_each pre (main_loop_body remove) fs))) →
  e ∈ events (for_each (pre ++ n :: post) (main_loop_body remove) fs).
Proof.
  intros H1 He. rewrite (loop_split _ _ _ _ _ _ H1). cbv zeta.
  destruct (result (main_loop_body remove n _)); cbn [events];
    rewrite !elem_of_app; auto.
Qed.

End LoopOrder.

(** ** The observations of [main] *)

Lemma own_not_banner n e :
  n ∈ icons → e ∈ banner ++ closing → ¬ own n e.
Proof.
  intros Hn He Hown. unfold banner, closing in He. cbn [app] in He.
  rewrite !elem_of_cons, elem_of_nil in He.
  icon_cases Hn; destruct_or!; try done; subst e;
    destruct Hown as [H|[H|H]]; by vm_compute in H.
Qed.

(** Where an observation of [main] comes from. *)
Lemma main_events_inv remove fs e :
  e ∈ events (main remove fs) →
  e ∈ events (os.makedirs output_dir true fs) ∨ e ∈ banner ++ closing ∨
  result (os.makedirs output_dir true fs) = inr tt ∧
  e ∈ events (for_each icons (main_loop_body remove)
                (fs_after (os.makedirs output_dir true fs))).
Proof.
  rewrite main_eq. unfold main_outcome. cbv zeta.
  destruct (result (os.makedirs output_dir true fs)) as [err|[]];
    cbn [events]; [by left|].
  rewrite !elem_of_app. intros [?|[?|[?|?]]]; auto.
  destruct (result (for_each icons _ _)); [by apply elem_of_nil in H|auto].
Qed.

Lemma main_events_own remove fs n e :
  n ∈ icons → own n e → e ∈ events (main remove fs) →
  result (os.makedirs output_dir true fs) = inr tt ∧
  e ∈ events (for_each icons (main_loop_body remove)
                (fs_after (os.makedirs output_dir true fs))).
Proof.
  intros Hn Hown [[p ->]%makedirs_events|[Hb|H]]%main_events_inv;
    [done| |done].
  by destruct (own_not_banner n e).
Qed.

Lemma main_events_loop remove fs e u :
  result (os.makedirs output_dir true fs) = inr u →
  e ∈ events (for_each icons (main_loop_body remove)
                (fs_after (os.makedirs output_dir true fs))) →
  e ∈ events (main remove fs).
Proof.
  intros Hmk He. rewrite main_eq. unfold main_outcome. cbv zeta.
  rewrite Hmk. cbn [events]. rewrite !elem_of_app. auto.
Qed.

(** What [main] leaves behind and how it ends, by phase. *)
Lemma main_after remove fs :
  match result (os.makedirs output_dir true fs) with
  | inl e =>
      fs_after (main remove fs) = fs_after (os.makedirs output_dir true fs) ∧
      result (main remove fs) = inl e
  | inr _ =>
      fs_after (main remove fs) =
        fs_after (for_each icons (main_loop_body remove)
                    (fs_after (os.makedirs output_dir true fs))) ∧
      result (main remove fs) =
        result (for_each icons (main_loop_body remove)
                  (fs_after (os.makedirs output_dir true fs)))
  end.
Proof.
  rewrite main_eq. unfold main_outcome. cbv zeta.
  by destruct (result (os.makedirs output_dir true fs)).
Qed.

(** * The claims *)

Lemma makedirs_keeps_input fs n :
  n ∈ icons →
  fs_after (os.makedirs output_dir true fs) !! input_path_of n
  = fs !! input_path_of n.
Proof. intros Hn. apply makedirs_frame; by apply paths_not_dirs. Qed.

Lemma makedirs_keeps_output fs n :
  n ∈ icons →
  fs_after (os.makedirs output_dir true fs) !! output_path_of n
  = fs !! output_path_of n.
Proof. intros Hn. apply makedirs_frame; by apply paths_not_dirs. Qed.

(** C1.  After a run of [main] that raises nothing, every configured icon
    whose input path existed when the run started is a regular file whose
    bytes the capability accepted, and the output path (same leaf name, in
    the output directory) holds exactly the capability's answer to those
    bytes; the run wrote these bytes, whatever the path held before. *)
Theorem C1_output_holds_capability_answer remove fs icon :
  icon ∈ icons →
  result (main remove fs) = inr tt →
  is_Some (fs !! input_path_of icon) →
  ∃ mode data out mode',
    fs !! input_path_of icon = Some (NFile mode data) ∧
    remove data = inr out ∧
    fs_after (main remove fs) !! output_path_of icon
      = Some (NFile mode' out) ∧
    EWrite (output_path_of icon) out ∈ events (main remove fs) ∧
    posixpath.basename (output_path_of icon)
      = posixpath.basename (input_path_of icon) ∧
    posixpath.dirname (output_path_of icon) = output_dir.
Proof.
  intros Hicon Hok Hin. rewrite main_eq in Hok |- *.
  unfold main_outcome in Hok |- *. cbv zeta in Hok |- *.
  destruct (result (os.makedirs output_dir true fs)) as [e|[]]; [done|].
  cbn [fs_after events result] in Hok |- *.
  rewrite <- (makedirs_keeps_input fs icon Hicon) in Hin |- *.
  destruct (loop_ok_outputs remove icons _ tt (λ _ H, H) NoDup_icons Hok
              icon Hicon Hin)
    as (mode & data & out & mode' & ? & ? & ? & ? & ? & ?).
  exists mode, data, out, mode'. split_and!; try done.
  - rewrite !elem_of_app. auto.
  - unfold output_path_of, input_path_of, os.path.join.
    by rewrite !basename_join.
  - by apply output_parent.
Qed.

Lemma C1_witness :
  ∃ mode data out mode',
    sample_fs !! input_path_of "set1_silent.png" = Some (NFile mode data) ∧
    sample_remove data = inr out ∧
    fs_after (main sample_remove sample_fs)
      !! output_path_of "set1_silent.png" = Some (NFile mode' out) ∧
    EWrite (output_path_of "set1_silent.png") out
      ∈ events (main sample_remove sample_fs) ∧
    posixpath.basename (output_path_of "set1_silent.png")
      = posixpath.basename (input_path_of "set1_silent.png") ∧
    posixpath.dirname (output_path_of "set1_silent.png") = output_dir.
Proof.
  apply (C1_output_holds_capability_answer sample_remove sample_fs).
  - left.
  - by vm_compute.
  - eexists. by vm_compute.
Defined.

(** C6.  When the output directory is already a directory at the start of
    a run, [os.makedirs(output_dir, exist_ok=True)] returns normally and
    prints nothing; it leaves a well-formed filesystem (one that also holds
    the parent [public]) untouched, and the run as a whole never ends with
    [FileExistsError]. *)
Theorem C6_makedirs_idempotent remove fs :
  fs !! output_dir = Some NDir →
  result (os.makedirs output_dir true fs) = inr tt ∧
  fs_after (os.makedirs output_dir true fs) !! output_dir = Some NDir ∧
  (∀ line, EPrint line ∉ events (os.makedirs output_dir true fs)) ∧
  (is_Some (fs !! input_dir) →
   os.makedirs output_dir true fs = Outcome fs [] (inr tt)) ∧
  (∀ p, result (main remove fs) ≠ inl (FileExistsError p)).
Proof.
  intros Hdir.
  assert (result (os.makedirs output_dir true fs) = inr tt) as Hok.
  { rewrite makedirs_eq. unfold makedirs_outcome. rewrite Hdir.
    by destruct (fs !! input_dir) as [[]|]. }
  split_and!; [done| | | |].
  - by apply (makedirs_ok fs tt).
  - by intros line [p ?]%makedirs_events.
  - by apply makedirs_present.
  - intros p Hres. pose proof (main_after remove fs) as Hm.
    rewrite Hok in Hm. destruct Hm as [_ Hm]. rewrite Hm in Hres.
    apply loop_error_from_pass in Hres as (n & fs' & _ & Hres).
    by apply body_error_kinds with (p := p) in Hres.
Qed.

Lemma C6_witness :
  result (os.makedirs output_dir true sample_fs_ready) = inr tt ∧
  fs_after (os.makedirs output_dir true sample_fs_ready) !! output_dir
    = Some NDir ∧
  (∀ line,
     EPrint line ∉ events (os.makedirs output_dir true sample_fs_ready)) ∧
  (is_Some (sample_fs_ready !! input_dir) →
   os.makedirs output_dir true sample_fs_ready
   = Outcome sample_fs_ready [] (inr tt)) ∧
  (∀ p, result (main sample_remove sample_fs_ready)
        ≠ inl (FileExistsError p)).
Proof.
  apply (C6_makedirs_idempotent sample_remove sample_fs_ready).
  by vm_compute.
Defined.

(** C7.  The input path and the output path that [main] builds from one
    list element have the same leaf; for the configured icons this leaf is
    the element itself.  In every run, a file is written only for an icon of
    the list whose input file was read in that run, and the written path has
    the leaf of the read path. *)
Theorem C7_same_leaf :
  (∀ icon,
     posixpath.basename (output_path_of icon)
     = posixpath.basename (input_path_of icon)) ∧
  Forall (λ icon,
            posixpath.basename (input_path_of icon) = icon ∧
            posixpath.basename (output_path_of icon) = icon) icons ∧
  (∀ remove fs p out,
     EWrite p out ∈ events (main remove fs) →
     ∃ icon data,
       icon ∈ icons ∧ p = output_path_of icon ∧
       ERead (input_path_of icon) data ∈ events (main remove fs) ∧
       posixpath.basename p = posixpath.basename (input_path_of icon)).
Proof.
  assert (∀ icon,
     posixpath.basename (output_path_of icon)
     = posixpath.basename (input_path_of icon)) as Hleaf.
  { intros icon. unfold output_path_of, input_path_of, os.path.join.
    by rewrite !basename_join. }
  split_and!; [done| |].
  - unfold icons. repeat (constructor; [by vm_compute|]). constructor.
  - intros remove fs p out Hw.
    destruct (main_events_inv _ _ _ Hw)
      as [[? [=]]%makedirs_events|[Hb|[Hmk Hl]]].
    { unfold banner, closing in Hb. cbn [app] in Hb.
      rewrite !elem_of_cons, elem_of_nil in Hb. by destruct_or!. }
    destruct (loop_events_own _ _ _ _ Hl) as [(n & Hn & Hown)|[? [=]]].
    cbn [own] in Hown. subst p.
    destruct (list_elem_of_split _ _ Hn) as (pre & post & Hsplit).
    destruct (loop_reach remove pre n post _ _ Hsplit Hl eq_refl)
      as [Hpre Hbody].
    apply body_write_inv in Hbody as (_ & _ & _ & data & Hrd & _).
    exists n, data. split_and!; [done..| |by apply Hleaf].
    eapply main_events_loop; [done|]. rewrite Hsplit.
    by eapply loop_pass_events.
Qed.

(** C10.  The configuration is fixed: the output directory is
    [public/transparent], the sub-directory [transparent] of the input
    directory [public], so every output path lies inside the input tree; the
    list holds exactly the three icon names, and a run that returns normally
    tests exactly their three input paths, in the order of the list. *)
Theorem C10_fixed_configuration :
  input_dir = "public" ∧ output_dir = "public/transparent" ∧
  output_dir = os.path.join input_dir "transparent" ∧
  posixpath.dirname output_dir = input_dir ∧
  Forall (λ icon,
            posixpath.dirname (posixpath.dirname (output_path_of icon))
            = input_dir) icons ∧
  icons = ["set1_silent.png"; "set1_listening.png"; "set1_speaking.png"] ∧
  (∀ remove fs,
     (∀ p, EMkdir p ∈ events (main remove fs) →
           p = "public" ∨ p = "public/transparent") ∧
     (result (main remove fs) = inr tt →
      checked_paths (events (main remove fs))
      = ["public/set1_silent.png"; "public/set1_listening.png";
         "public/set1_speaking.png"])).
Proof.
  split_and!; try done.
  - unfold icons. repeat (constructor; [by vm_compute|]). constructor.
  - intros remove fs. split.
    + intros p [[[=]|[=]]%makedirs_events_dirs|[Hb|[_ Hl]]]%main_events_inv;
        [by left|by right| |].
      * unfold banner, closing in Hb. cbn [app] in Hb.
        rewrite !elem_of_cons, elem_of_nil in Hb. by destruct_or!.
      * by apply loop_events_own in Hl as [(? & ? & [])|[? [=]]].
    + intros Hok. pose proof (main_after remove fs) as Hm.
      rewrite main_eq in Hok |- *. unfold main_outcome in Hok |- *.
      cbv zeta in Hok |- *.
      destruct (result (os.makedirs output_dir true fs)) as [e|[]] eqn:Hmk;
        [done|].
      cbn [fs_after events result] in Hok |- *. rewrite Hok.
      rewrite !checked_paths_app.
      destruct (loop_checked_paths remove icons
                  (fs_after (os.makedirs output_dir true fs))) as [_ He].
      rewrite (He tt Hok).
      assert (checked_paths (events (os.makedirs output_dir true fs)) = [])
        as ->.
      { rewrite makedirs_eq. unfold makedirs_outcome.
        by destruct (fs !! input_dir) as [[]|],
                    (fs !! output_dir) as [[]|]. }
      done.
Qed.

Lemma main_events_makedirs remove fs e :
  e ∈ events (os.makedirs output_dir true fs) → e ∈ events (main remove fs).
Proof.
  intros He. rewrite main_eq. unfold main_outcome. cbv zeta.
  destruct (result (os.makedirs output_dir true fs)); cbn [events];
    rewrite ?elem_of_app; auto.
Qed.

(** Every entry of the filesystem after [main] is the entry before it, or
    an output path the run wrote, or a directory the run created. *)
Lemma main_changed remove fs p :
  fs_after (main remove fs) !! p = fs !! p ∨
  (∃ icon out, icon ∈ icons ∧ p = output_path_of icon ∧
               EWrite p out ∈ events (main remove fs)) ∨
  (p = input_dir ∨ p = output_dir) ∧ fs !! p = None ∧
  fs_after (main remove fs) !! p = Some NDir ∧
  EMkdir p ∈ events (main remove fs).
Proof.
  pose proof (main_after remove fs) as Hm.
  destruct (result (os.makedirs output_dir true fs)) as [e|u] eqn:Hmk;
    destruct Hm as [-> _].
  - destruct (makedirs_changed fs p) as [?|(? & ? & ? & ?)]; [by left|].
    do 2 right. split_and!; auto using main_events_makedirs.
  - destruct (loop_changed remove icons
                (fs_after (os.makedirs output_dir true fs)) p)
      as [->|(n & out & ? & ? & ?)].
    + destruct (makedirs_changed fs p) as [?|(? & ? & ? & ?)]; [by left|].
      do 2 right. split_and!; auto using main_events_makedirs.
    + right. left. exists n, out. split_and!; [done..|].
      by eapply main_events_loop.
Qed.

(** C8.  A run of [main], however it ends, leaves every input path as it
    was.  Any entry of the filesystem that differs after the run is an
    output path [output_dir/icon] of a configured icon that the run wrote,
    or the output directory (or its missing parent [public]) that
    [os.makedirs] created where nothing was before. *)
Theorem C8_inputs_untouched remove fs :
  (∀ icon, icon ∈ icons →
     fs_after (main remove fs) !! input_path_of icon
     = fs !! input_path_of icon) ∧
  (∀ p,
     fs_after (main remove fs) !! p = fs !! p ∨
     (∃ icon out, icon ∈ icons ∧ p = output_path_of icon ∧
                  EWrite p out ∈ events (main remove fs)) ∨
     (p = posixpath.dirname output_dir ∨ p = output_dir) ∧
     fs !! p = None ∧
     fs_after (main remove fs) !! p = Some NDir ∧
     EMkdir p ∈ events (main remove fs)).
Proof.
  split; [|apply main_changed].
  intros icon Hicon.
  destruct (main_changed remove fs (input_path_of icon))
    as [?|[(n & out & Hn & Heq & _)|([Heq|Heq] & _)]]; [done| | |].
  - by destruct (input_output_disjoint icon n).
  - by destruct (paths_not_dirs icon Hicon) as (? & ? & ? & ?).
  - by destruct (paths_not_dirs icon Hicon) as (? & ? & ? & ?).
Qed.

(** The outputs of a run that returned normally. *)
Lemma main_ok_outputs remove fs icon :
  icon ∈ icons →
  result (main remove fs) = inr tt →
  is_Some (fs !! input_path_of icon) →
  ∃ mode data out mode',
    fs !! input_path_of icon = Some (NFile mode data) ∧
    readable mode = true ∧ remove data = inr out ∧
    fs_after (main remove fs) !! output_path_of icon
      = Some (NFile mode' out) ∧
    EWrite (output_path_of icon) out ∈ events (main remove fs).
Proof.
  intros Hicon Hok Hin. pose proof (main_after remove fs) as Hm.
  destruct (result (os.makedirs output_dir true fs)) as [e|[]] eqn:Hmk;
    destruct Hm as [Hfs Hres]; [congruence|].
  rewrite Hfs. rewrite Hres in Hok.
  rewrite <- (makedirs_keeps_input fs icon Hicon) in Hin |- *.
  destruct (loop_ok_outputs remove icons _ tt (λ _ H, H) NoDup_icons Hok
              icon Hicon Hin)
    as (mode & data & out & mode' & ? & ? & ? & ? & ? & ?).
  exists mode, data, out, mode'. split_and!; try done.
  by eapply main_events_loop.
Qed.

(** C5.  After a run that returned normally, a second run on the resulting
    filesystem returns normally too and leaves every file exactly as the
    first run left it: it creates no directory, repeats every other
    observation of the first run (so it writes the same bytes to the same
    output paths), and the filesystem is unchanged.  More generally, two
    normal runs that start from the same bytes for an icon leave the same
    bytes in its output file. *)
Theorem C5_second_run_identical remove fs :
  result (main remove fs) = inr tt →
  result (main remove (fs_after (main remove fs))) = inr tt ∧
  fs_after (main remove (fs_after (main remove fs)))
    = fs_after (main remove fs) ∧
  events (main remove fs)
    = events (os.makedirs output_dir true fs) ++
      events (main remove (fs_after (main remove fs))) ∧
  (∀ e, e ∈ events (os.makedirs output_dir true fs) → ∃ p, e = EMkdir p) ∧
  (∀ fs' icon,
     icon ∈ icons → result (main remove fs') = inr tt →
     fs' !! input_path_of icon = fs !! input_path_of icon →
     is_Some (fs !! input_path_of icon) →
     ∃ out mode mode',
       fs_after (main remove fs) !! output_path_of icon
         = Some (NFile mode out) ∧
       fs_after (main remove fs') !! output_path_of icon
         = Some (NFile mode' out)).
Proof.
  intros Hok.
  assert (∀ fs' icon,
     icon ∈ icons → result (main remove fs') = inr tt →
     fs' !! input_path_of icon = fs !! input_path_of icon →
     is_Some (fs !! input_path_of icon) →
     ∃ out mode mode',
       fs_after (main remove fs) !! output_path_of icon
         = Some (NFile mode out) ∧
       fs_after (main remove fs') !! output_path_of icon
         = Some (NFile mode' out)) as Hsame.
  { intros fs' icon Hicon Hok' Heq Hin.
    destruct (main_ok_outputs remove fs icon Hicon Hok Hin)
      as (m1 & d1 & o1 & m1' & Hi1 & _ & Hr1 & Ho1 & _).
    rewrite <- Heq in Hin.
    destruct (main_ok_outputs remove fs' icon Hicon Hok' Hin)
      as (m2 & d2 & o2 & m2' & Hi2 & _ & Hr2 & Ho2 & _).
    rewrite Heq, Hi1 in Hi2. injection Hi2 as _ <-.
    rewrite Hr1 in Hr2. injection Hr2 as <-.
    by exists o1, m1', m2'. }
  pose proof (main_after remove fs) as Hm.
  destruct (result (os.makedirs output_dir true fs)) as [e|[]] eqn:Hmk;
    destruct Hm as [Hfs Hres]; [congruence|].
  rewrite Hres in Hok.
  set (fs0 := fs_after (os.makedirs output_dir true fs)) in *.
  set (fs1 := fs_after (main remove fs)) in *.
  destruct (makedirs_ok fs tt Hmk) as [Hdir Hparent]. fold fs0 in Hdir, Hparent.
  assert (os.makedirs output_dir true fs1 = Outcome fs1 [] (inr tt)) as Hmk1.
  { apply makedirs_present; rewrite Hfs, loop_frame; auto;
      intros n Hn Heq; symmetry in Heq; revert Heq;
      by apply (paths_not_dirs n Hn). }
  assert (for_each icons (main_loop_body remove) fs1
          = Outcome fs1 (events (for_each icons (main_loop_body remove) fs0))
              (inr tt)) as Hloop1.
  { apply (loop_rerun remove icons fs0 fs1 tt); auto using NoDup_icons.
    - intros n Hn. rewrite Hfs. apply loop_frame.
      intros m Hm. by apply input_output_disjoint.
    - intros n Hn. by rewrite Hfs. }
  assert (main remove fs1
          = Outcome fs1
              (banner ++ events (for_each icons (main_loop_body remove) fs0)
               ++ closing) (inr tt)) as Hmain1.
  { rewrite main_eq. unfold main_outcome. cbv zeta. rewrite Hmk1.
    cbn [fs_after events result]. by rewrite Hloop1. }
  rewrite Hmain1. cbn [fs_after events result].
  split_and!; [done..| |apply makedirs_events|done].
  rewrite main_eq. unfold main_outcome. cbv zeta. rewrite Hmk.
  cbn [events]. fold fs0. by rewrite Hok.
Qed.

Lemma C5_witness :
  result (main sample_remove (fs_after (main sample_remove sample_fs)))
    = inr tt ∧
  fs_after (main sample_remove (fs_after (main sample_remove sample_fs)))
    = fs_after (main sample_remove sample_fs) ∧
  events (main sample_remove sample_fs)
    = events (os.makedirs output_dir true sample_fs) ++
      events (main sample_remove (fs_after (main sample_remove sample_fs))) ∧
  (∀ e, e ∈ events (os.makedirs output_dir true sample_fs) →
        ∃ p, e = EMkdir p) ∧
  (∀ fs' icon,
     icon ∈ icons → result (main sample_remove fs') = inr tt →
     fs' !! input_path_of icon = sample_fs !! input_path_of icon →
     is_Some (sample_fs !! input_path_of icon) →
     ∃ out mode mode',
       fs_after (main sample_remove sample_fs) !! output_path_of icon
         = Some (NFile mode out) ∧
       fs_after (main sample_remove fs') !! output_path_of icon
         = Some (NFile mode' out)).
Proof.
  apply (C5_second_run_identical sample_remove sample_fs).
  by vm_compute.
Defined.

(** ** Reaching an icon *)

Section Reach.
Variable remove : list byte → string + list byte.

Lemma split_icons_facts (pre : list string) n post :
  icons = pre ++ n :: post →
  n ∈ icons ∧ pre ⊆ icons ∧ post ⊆ icons ∧
  NoDup pre ∧ NoDup post ∧ (n ∉ pre) ∧ (n ∉ post) ∧
  (∀ x, x ∈ pre → x ∉ post).
Proof.
  intros Hsplit. pose proof NoDup_icons as Hnd. rewrite Hsplit in Hnd.
  apply NoDup_app in Hnd as (Hpre & Hdisj & [Hn Hpost]%NoDup_cons).
  rewrite Hsplit. split_and!; auto.
  - apply elem_of_app. right. left.
  - intros x Hx. apply elem_of_app. by left.
  - intros x Hx. apply elem_of_app. right. by right.
  - intros Hin. apply (Hdisj n Hin). left.
  - intros x Hx Hx'. apply (Hdisj x Hx). by right.
Qed.

Lemma loop_ok_prefix (pre post : list string) fs u :
  result (for_each (pre ++ post) (main_loop_body remove) fs) = inr u →
  result (for_each pre (main_loop_body remove) fs) = inr tt.
Proof.
  rewrite for_each_app. unfold bind.
  by destruct (result (for_each pre (main_loop_body remove) fs)) as [e|[]].
Qed.

(** The filesystem in which the pass over [n] starts holds the input of
    [n] as the run found it. *)
Lemma reach_keeps_input (pre : list string) n post fs :
  icons = pre ++ n :: post →
  fs_after (for_each pre (main_loop_body remove)
              (fs_after (os.makedirs output_dir true fs)))
    !! input_path_of n
  = fs !! input_path_of n.
Proof.
  intros (Hn & Hpre & _)%split_icons_facts.
  rewrite loop_frame, makedirs_keeps_input; [done..|].
  intros m Hm. apply input_output_disjoint; auto.
Qed.

(** ... and its output path as the run found it. *)
Lemma reach_keeps_output (pre : list string) n post fs :
  icons = pre ++ n :: post →
  fs_after (for_each pre (main_loop_body remove)
              (fs_after (os.makedirs output_dir true fs)))
    !! output_path_of n
  = fs !! output_path_of n.
Proof.
  intros (Hn & Hpre & _ & _ & _ & Hfresh & _)%split_icons_facts.
  rewrite loop_frame, makedirs_keeps_output; [done..|].
  intros m Hm Heq. apply output_path_inj in Heq; auto. by subst.
Qed.

(** An observation of [main] that names the paths of [n] was made in the
    pass over [n]; at that point the directory exists and all earlier
    passes have returned normally. *)
Lemma main_reach (pre : list string) n post fs e :
  icons = pre ++ n :: post →
  e ∈ events (main remove fs) → own n e →
  result (os.makedirs output_dir true fs) = inr tt ∧
  result (for_each pre (main_loop_body remove)
            (fs_after (os.makedirs output_dir true fs))) = inr tt ∧
  e ∈ events (main_loop_body remove n
                (fs_after (for_each pre (main_loop_body remove)
                             (fs_after (os.makedirs output_dir true fs))))).
Proof.
  intros Hsplit He Hown.
  destruct (split_icons_facts _ _ _ Hsplit) as (Hn & _).
  destruct (main_events_own remove fs n e Hn Hown He) as [Hmk Hl].
  destruct (loop_reach remove pre n post _ e Hsplit Hl Hown). done.
Qed.

(** The run as a whole once the pass over [n] is reached. *)
Lemma main_at (pre : list string) n post fs :
  icons = pre ++ n :: post →
  result (os.makedirs output_dir true fs) = inr tt →
  result (for_each pre (main_loop_body remove)
            (fs_after (os.makedirs output_dir true fs))) = inr tt →
  let r0 := os.makedirs output_dir true fs in
  let r1 := for_each pre (main_loop_body remove) (fs_after r0) in
  let r2 := main_loop_body remove n (fs_after r1) in
  match result r2 with
  | inl e =>
      main remove fs =
      Outcome (fs_after r2)
        (events r0 ++ banner ++ events r1 ++ events r2) (inl e)
  | inr _ =>
      let r3 := for_each post (main_loop_body remove) (fs_after r2) in
      main remove fs =
      Outcome (fs_after r3)
        (events r0 ++ banner ++ events r1 ++ events r2 ++ events r3 ++
         match result r3 with inl _ => [] | inr _ => closing end)
        (result r3)
  end.
Proof.
  intros Hsplit Hmk Hpre. cbv zeta.
  rewrite main_eq. unfold main_outcome. cbv zeta. rewrite Hmk, Hsplit.
  rewrite (loop_split remove pre n post _ tt Hpre). cbv zeta.
  destruct (result (main_loop_body remove n _)) as [e|u];
    cbn [fs_after events result].
  - by rewrite app_nil_r.
  - by rewrite <- !app_assoc.
Qed.

Lemma body_events_head icon fs :
  ∃ t, events (main_loop_body remove icon fs)
       = EExists (input_path_of icon)
           (os.path.exists_in fs (input_path_of icon)) :: t.
Proof.
  rewrite main_loop_body_eq.
  unfold loop_body_outcome, events_until_remove, os.path.exists_in.
  destruct (fs !! input_path_of icon) as [[mode data|]|]; [|by eexists..].
  destruct (readable mode); [|by eexists].
  destruct (remove data); [by eexists|].
  destruct (open_target fs (output_path_of icon)); by eexists.
Qed.

Lemma body_read_inv icon fs p data :
  ERead p data ∈ events (main_loop_body remove icon fs) →
  ∃ mode, fs !! input_path_of icon = Some (NFile mode data) ∧
          readable mode = true.
Proof.
  rewrite main_loop_body_eq. unfold loop_body_outcome, events_until_remove.
  destruct (fs !! input_path_of icon) as [[mode d|]|];
    [destruct (readable mode) eqn:Hr;
       [destruct (remove d);
          [|destruct (open_target fs (output_path_of icon))]|]| |];
    simpl; rewrite ?elem_of_cons, elem_of_nil;
    intros H; destruct_or!; simplify_eq; eauto.
Qed.

Lemma body_remove_raises icon fs mode data msg :
  fs !! input_path_of icon = Some (NFile mode data) →
  readable mode = true → remove data = inl msg →
  main_loop_body remove icon fs =
  Outcome fs (events_until_remove icon data) (inl (RembgError msg)).
Proof.
  intros Hin Hr Hrm. rewrite main_loop_body_eq. unfold loop_body_outcome.
  by rewrite Hin, Hr, Hrm.
Qed.

Lemma body_unreadable icon fs :
  exists_unreadable fs (input_path_of icon) →
  ∃ e, (e = IsADirectoryError (input_path_of icon) ∨
        e = PermissionError (input_path_of icon)) ∧
       result (read_bytes (input_path_of icon) fs) = inl e ∧
       main_loop_body remove icon fs =
       Outcome fs [EExists (input_path_of icon) true;
                   EPrint (msg_processing (input_path_of icon))] (inl e).
Proof.
  intros [Hd|(mode & data & Hf & Hr)]; rewrite main_loop_body_eq;
    unfold loop_body_outcome, read_bytes, bind, get_fs;
    cbn [fs_after events result].
  - rewrite Hd. eexists. split; [by left|done].
  - rewrite Hf, Hr. eexists. split; [by right|done].
Qed.

End Reach.

(** C2.  Suppose the run read the bytes [data] of the icon [icon] and the
    capability raises on them.  Then the run ends with that error, uncaught,
    and the call of the capability is its last observation.  Every icon
    before [icon] in the list whose input existed has its output written,
    with the capability's answer; the output paths of [icon] and of every
    later icon are as they were before the run, and nothing was written to
    them. *)
Theorem C2_capability_failure_aborts remove fs
    (pre : list string) icon post data msg :
  icons = pre ++ icon :: post →
  ERead (input_path_of icon) data ∈ events (main remove fs) →
  remove data = inl msg →
  result (main remove fs) = inl (RembgError msg) ∧
  (∃ t, events (main remove fs)
        = t ++ [ERead (input_path_of icon) data; ERemove data]) ∧
  (∀ i, i ∈ pre → is_Some (fs !! input_path_of i) →
     ∃ mode d out mode',
       fs !! input_path_of i = Some (NFile mode d) ∧
       remove d = inr out ∧
       fs_after (main remove fs) !! output_path_of i
         = Some (NFile mode' out)) ∧
  (∀ j, j ∈ icon :: post →
     fs_after (main remove fs) !! output_path_of j
       = fs !! output_path_of j ∧
     ∀ out, EWrite (output_path_of j) out ∉ events (main remove fs)).
Proof.
  intros Hsplit Hread Hraise.
  destruct (split_icons_facts _ _ _ Hsplit)
    as (Hicon & Hpre & Hpost & Hndpre & Hndpost & Hfresh & Hfresh' & Hdisj).
  destruct (main_reach remove pre icon post fs _ Hsplit Hread eq_refl)
    as (Hmk & Hrun & Hbody).
  apply body_read_inv in Hbody as (mode & Hin & Hr).
  pose proof (main_at remove pre icon post fs Hsplit Hmk Hrun) as Hmain.
  cbv zeta in Hmain.
  rewrite (body_remove_raises remove icon _ mode data msg Hin Hr Hraise)
    in Hmain.
  cbn [fs_after events result] in Hmain. rewrite Hmain.
  cbn [fs_after events result].
  set (fs0 := fs_after (os.makedirs output_dir true fs)) in *.
  assert (∀ j out, j ∈ icon :: post →
            EWrite (output_path_of j) out
            ∉ events (os.makedirs output_dir true fs) ++ banner ++
              events (for_each pre (main_loop_body remove) fs0) ++
              events_until_remove icon data) as Hnowrite.
  { intros j out Hj. rewrite !elem_of_app.
    intros [[? [=]]%makedirs_events|[Hb|[Hl|Hu]]].
    - unfold banner in Hb. rewrite !elem_of_cons, elem_of_nil in Hb.
      by destruct_or!.
    - apply loop_events_own in Hl as [(n & Hn & Hown)|[? [=]]].
      cbn [own] in Hown.
      assert (j ∈ icons) as Hjin.
      { rewrite Hsplit. apply elem_of_app. by right. }
      apply output_path_inj in Hown; auto. subst n.
      apply elem_of_cons in Hj as [->|Hj]; [done|]. by apply (Hdisj j).
    - unfold events_until_remove in Hu.
      rewrite !elem_of_cons, elem_of_nil in Hu. by destruct_or!. }
  split_and!.
  - done.
  - exists (events (os.makedirs output_dir true fs) ++ banner ++
            events (for_each pre (main_loop_body remove) fs0) ++
            [EExists (input_path_of icon) true;
             EPrint (msg_processing (input_path_of icon))]).
    unfold events_until_remove. by rewrite <- !app_assoc.
  - intros i Hi Hex.
    rewrite <- (makedirs_keeps_input fs i (Hpre i Hi)) in Hex |- *.
    fold fs0 in Hex |- *.
    destruct (loop_ok_outputs remove pre fs0 tt Hpre Hndpre Hrun i Hi Hex)
      as (m & d & out & m' & ? & ? & ? & ? & _).
    by exists m, d, out, m'.
  - intros j Hj. split; [|intros out; by apply Hnowrite].
    assert (j ∈ icons) as Hjin.
    { rewrite Hsplit. apply elem_of_app. by right. }
    rewrite loop_frame; [by apply makedirs_keeps_output|].
    intros n Hn Heq. apply output_path_inj in Heq; auto. subst n.
    apply elem_of_cons in Hj as [->|Hj]; [done|]. by apply (Hdisj j).
Qed.

Lemma C2_witness :
  result (main sample_remove sample_fs_empty_icon)
    = inl (RembgError "empty image") ∧
  (∃ t, events (main sample_remove sample_fs_empty_icon)
        = t ++ [ERead (input_path_of "set1_listening.png") [];
                ERemove []]) ∧
  (∀ i, i ∈ ["set1_silent.png"] →
     is_Some (sample_fs_empty_icon !! input_path_of i) →
     ∃ mode d out mode',
       sample_fs_empty_icon !! input_path_of i = Some (NFile mode d) ∧
       sample_remove d = inr out ∧
       fs_after (main sample_remove sample_fs_empty_icon) !! output_path_of i
         = Some (NFile mode' out)) ∧
  (∀ j, j ∈ ["set1_listening.png"; "set1_speaking.png"] →
     fs_after (main sample_remove sample_fs_empty_icon) !! output_path_of j
       = sample_fs_empty_icon !! output_path_of j ∧
     ∀ out, EWrite (output_path_of j) out
            ∉ events (main sample_remove sample_fs_empty_icon)).
Proof.
  apply (C2_capability_failure_aborts sample_remove sample_fs_empty_icon
           ["set1_silent.png"] "set1_listening.png" ["set1_speaking.png"]
           [] "empty image").
  - reflexivity.
  - vm_compute. do 14 right. left.
  - reflexivity.
Defined.

Lemma msg_not_found_ne_processing p q : msg_not_found p ≠ msg_processing q.
Proof. unfold msg_not_found, msg_processing. intros H. cbv in H. discriminate. Qed.

Lemma read_bytes_agree p (fs1 fs2 : filesystem) :
  fs1 !! p = fs2 !! p →
  result (read_bytes p fs1) = result (read_bytes p fs2).
Proof.
  intros H. unfold read_bytes, bind, get_fs. cbn [fs_after events result].
  rewrite H. destruct (fs2 !! p) as [[mode data|]|]; [|done..].
  by destruct (readable mode).
Qed.

(** C9.  Let the input path of a configured icon exist without being a
    readable regular file (a directory, or a file without read permission).
    Then no run emits the skip notice for it and no run returns normally.
    When the run gets to test the path, the test answers [True], the
    message [Processing: ...] is the last observation, and the run ends with
    the very exception that [open(input_path, 'rb')] raises. *)
Theorem C9_unreadable_input_aborts remove fs
    (pre : list string) icon post :
  icons = pre ++ icon :: post →
  exists_unreadable fs (input_path_of icon) →
  (∃ e, result (main remove fs) = inl e) ∧
  (EPrint (msg_not_found (input_path_of icon))
     ∉ events (main remove fs)) ∧
  (∀ b, EExists (input_path_of icon) b ∈ events (main remove fs) →
     b = true ∧
     ∃ e t,
       result (main remove fs) = inl e ∧
       result (read_bytes (input_path_of icon) fs) = inl e ∧
       (e = IsADirectoryError (input_path_of icon) ∨
        e = PermissionError (input_path_of icon)) ∧
       events (main remove fs)
       = t ++ [EExists (input_path_of icon) true;
               EPrint (msg_processing (input_path_of icon))]).
Proof.
  intros Hsplit Hbad.
  destruct (split_icons_facts _ _ _ Hsplit) as (Hicon & _).
  set (fs_pre := fs_after (for_each pre (main_loop_body remove)
                   (fs_after (os.makedirs output_dir true fs)))).
  assert (fs_pre !! input_path_of icon = fs !! input_path_of icon) as Hkeep
    by (by eapply reach_keeps_input).
  assert (exists_unreadable fs_pre (input_path_of icon)) as Hbad'.
  { unfold exists_unreadable. by rewrite Hkeep. }
  destruct (body_unreadable remove icon fs_pre Hbad')
    as (e & Hkind & Hread & Hbody).
  split_and!.
  - destruct (result (main remove fs)) as [e'|[]] eqn:Hres; [by eexists|].
    assert (is_Some (fs !! input_path_of icon)) as Hex.
    { destruct Hbad as [->|(? & ? & -> & _)]; by eexists. }
    destruct (main_ok_outputs remove fs icon Hicon Hres Hex)
      as (mode & data & _ & _ & Hin & Hr & _).
    destruct Hbad as [Hd|(? & ? & Hf & Hr')]; congruence.
  - intros Hp.
    destruct (main_reach remove pre icon post fs _ Hsplit Hp)
      as (_ & _ & Hin); [by left|].
    fold fs_pre in Hin. rewrite Hbody in Hin. cbn [events] in Hin.
    rewrite !elem_of_cons, elem_of_nil in Hin.
    destruct Hin as [Hin|[Hin|[]]]; [discriminate|].
    apply (msg_not_found_ne_processing (input_path_of icon)
             (input_path_of icon)). congruence.
  - intros b Hb.
    destruct (main_reach remove pre icon post fs _ Hsplit Hb eq_refl)
      as (Hmk & Hrun & Hin).
    fold fs_pre in Hin. rewrite Hbody in Hin. cbn [events] in Hin.
    rewrite !elem_of_cons, elem_of_nil in Hin.
    destruct Hin as [[= ->]|[[=]|[]]]. split; [done|].
    pose proof (main_at remove pre icon post fs Hsplit Hmk Hrun) as Hmain.
    cbv zeta in Hmain. fold fs_pre in Hmain. rewrite Hbody in Hmain.
    cbn [fs_after events result] in Hmain.
    exists e, (events (os.makedirs output_dir true fs) ++ banner ++
               events (for_each pre (main_loop_body remove)
                         (fs_after (os.makedirs output_dir true fs)))).
    rewrite Hmain. cbn [fs_after events result]. split_and!; [done| |done|].
    + by rewrite <- (read_bytes_agree _ _ _ Hkeep).
    + by rewrite <- !app_assoc.
Qed.

Lemma C9_witness :
  (∃ e, result (main sample_remove sample_fs_dir_icon) = inl e) ∧
  (EPrint (msg_not_found (input_path_of "set1_listening.png"))
     ∉ events (main sample_remove sample_fs_dir_icon)) ∧
  (∀ b, EExists (input_path_of "set1_listening.png") b
          ∈ events (main sample_remove sample_fs_dir_icon) →
     b = true ∧
     ∃ e t,
       result (main sample_remove sample_fs_dir_icon) = inl e ∧
       result (read_bytes (input_path_of "set1_listening.png")
                 sample_fs_dir_icon) = inl e ∧
       (e = IsADirectoryError (input_path_of "set1_listening.png") ∨
        e = PermissionError (input_path_of "set1_listening.png")) ∧
       events (main sample_remove sample_fs_dir_icon)
       = t ++ [EExists (input_path_of "set1_listening.png") true;
               EPrint (msg_processing
                         (input_path_of "set1_listening.png"))]).
Proof.
  apply (C9_unreadable_input_aborts sample_remove sample_fs_dir_icon
           ["set1_silent.png"] "set1_listening.png" ["set1_speaking.png"]).
  - reflexivity.
  - left. by vm_compute.
Defined.

(** C3.  Let the input path of a configured icon be missing.  No run
    creates or changes its output path.  When the run gets to test the
    input path, the test answers [False], the notice [File not found: ...]
    follows at once, and the very next observation is the existence test
    of the next icon of the list (or, after the last icon, the closing
    lines of a run that returns normally).  The missing icon does not make
    the run fail: when the output directory can be created and every other
    icon passes, the run returns normally, with the notice emitted. *)
Theorem C3_missing_input_is_skipped remove fs
    (pre : list string) icon post :
  icons = pre ++ icon :: post →
  fs !! input_path_of icon = None →
  fs_after (main remove fs) !! output_path_of icon
    = fs !! output_path_of icon ∧
  (∀ out, EWrite (output_path_of icon) out ∉ events (main remove fs)) ∧
  (∀ b, EExists (input_path_of icon) b ∈ events (main remove fs) →
     b = false ∧
     ∃ t1 t2,
       events (main remove fs)
       = t1 ++ [EExists (input_path_of icon) false;
                EPrint (msg_not_found (input_path_of icon))] ++ t2 ∧
       match post with
       | [] => t2 = closing ∧ result (main remove fs) = inr tt
       | next :: _ => ∃ b' t3, t2 = EExists (input_path_of next) b' :: t3
       end) ∧
  (result (os.makedirs output_dir true fs) = inr tt →
   (∀ j, j ∈ icons → j ≠ icon →
      result (main_loop_body remove j
                (fs_after (os.makedirs output_dir true fs))) = inr tt) →
   result (main remove fs) = inr tt ∧
   EPrint (msg_not_found (input_path_of icon)) ∈ events (main remove fs)).
Proof.
  intros Hsplit Hnone.
  destruct (split_icons_facts _ _ _ Hsplit) as (Hicon & _).
  set (fs0 := fs_after (os.makedirs output_dir true fs)).
  set (fs_pre := fs_after (for_each pre (main_loop_body remove) fs0)).
  assert (fs_pre !! input_path_of icon = None) as Hnone'.
  { unfold fs_pre, fs0. by erewrite reach_keeps_input. }
  pose proof (body_missing remove icon fs_pre Hnone') as Hbody.
  assert (∀ out, EWrite (output_path_of icon) out ∉ events (main remove fs))
    as Hnowrite.
  { intros out Hw.
    destruct (main_reach remove pre icon post fs _ Hsplit Hw eq_refl)
      as (_ & _ & Hin).
    fold fs0 fs_pre in Hin. rewrite Hbody in Hin. cbn [events] in Hin.
    rewrite !elem_of_cons, elem_of_nil in Hin. by destruct_or!. }
  split_and!; [|done| |].
  - destruct (main_changed remove fs (output_path_of icon))
      as [?|[(n & out & _ & _ & Hw)|([Heq|Heq] & _)]]; [done| | |].
    + by destruct (Hnowrite out).
    + by destruct (paths_not_dirs icon Hicon) as (? & ? & ? & ?).
    + by destruct (paths_not_dirs icon Hicon) as (? & ? & ? & ?).
  - intros b Hb.
    destruct (main_reach remove pre icon post fs _ Hsplit Hb eq_refl)
      as (Hmk & Hrun & Hin).
    fold fs0 fs_pre in Hin. rewrite Hbody in Hin. cbn [events] in Hin.
    rewrite !elem_of_cons, elem_of_nil in Hin.
    destruct Hin as [[= ->]|[[=]|[]]]. split; [done|].
    pose proof (main_at remove pre icon post fs Hsplit Hmk Hrun) as Hmain.
    cbv zeta in Hmain. fold fs0 fs_pre in Hmain. rewrite Hbody in Hmain.
    cbn [fs_after events result] in Hmain. rewrite Hmain.
    cbn [fs_after events result].
    exists (events (os.makedirs output_dir true fs) ++ banner ++
            events (for_each pre (main_loop_body remove) fs0)).
    eexists. split; [by rewrite <- !app_assoc|].
    destruct post as [|next post']; [done|].
    rewrite loop_cons. cbv zeta.
    destruct (body_events_head remove next fs_pre) as [t Ht].
    destruct (result (main_loop_body remove next fs_pre));
      cbn [fs_after events result]; rewrite Ht; by eexists _, _.
  - intros Hmk Hall.
    assert (result (for_each icons (main_loop_body remove) fs0) = inr tt)
      as Hloop.
    { apply loop_all_pass; auto using NoDup_icons.
      intros j Hj. destruct (decide (j = icon)) as [->|Hne]; [|by apply Hall].
      rewrite body_missing; [done|].
      unfold fs0. by rewrite makedirs_keeps_input. }
    pose proof (main_after remove fs) as Hm. rewrite Hmk in Hm.
    destruct Hm as [_ Hres]. fold fs0 in Hres. split; [congruence|].
    assert (result (for_each pre (main_loop_body remove) fs0) = inr tt)
      as Hrun.
    { rewrite Hsplit in Hloop. by eapply loop_ok_prefix. }
    pose proof (main_at remove pre icon post fs Hsplit Hmk Hrun) as Hmain.
    cbv zeta in Hmain. fold fs0 fs_pre in Hmain. rewrite Hbody in Hmain.
    cbn [fs_after events result] in Hmain. rewrite Hmain.
    cbn [events]. rewrite !elem_of_app, !elem_of_cons. auto 10.
Qed.

Lemma C3_witness :
  fs_after (main sample_remove sample_fs)
    !! output_path_of "set1_listening.png"
    = sample_fs !! output_path_of "set1_listening.png" ∧
  (∀ out, EWrite (output_path_of "set1_listening.png") out
          ∉ events (main sample_remove sample_fs)) ∧
  (∀ b, EExists (input_path_of "set1_listening.png") b
          ∈ events (main sample_remove sample_fs) →
     b = false ∧
     ∃ t1 t2,
       events (main sample_remove sample_fs)
       = t1 ++ [EExists (input_path_of "set1_listening.png") false;
                EPrint (msg_not_found
                          (input_path_of "set1_listening.png"))] ++ t2 ∧
       ∃ b' t3, t2 = EExists (input_path_of "set1_speaking.png") b' :: t3) ∧
  (result (os.makedirs output_dir true sample_fs) = inr tt →
   (∀ j, j ∈ icons → j ≠ "set1_listening.png" →
      result (main_loop_body sample_remove j
                (fs_after (os.makedirs output_dir true sample_fs)))
      = inr tt) →
   result (main sample_remove sample_fs) = inr tt ∧
   EPrint (msg_not_found (input_path_of "set1_listening.png"))
     ∈ events (main sample_remove sample_fs)).
Proof.
  apply (C3_missing_input_is_skipped sample_remove sample_fs
           ["set1_silent.png"] "set1_listening.png" ["set1_speaking.png"]).
  - reflexivity.
  - by vm_compute.
Defined.

(** * Further properties of the script *)

(** ** [remove_background] on arbitrary paths *)

Lemma remove_background_eq remove ip op fs :
  remove_background remove ip op fs =
  match fs !! ip with
  | None =>
      Outcome fs [EPrint (msg_processing ip)] (inl (FileNotFoundError ip))
  | Some NDir =>
      Outcome fs [EPrint (msg_processing ip)] (inl (IsADirectoryError ip))
  | Some (NFile mode data) =>
      if readable mode then
        match remove data with
        | inl msg =>
            Outcome fs [EPrint (msg_processing ip); ERead ip data;
                        ERemove data] (inl (RembgError msg))
        | inr out =>
            match open_target fs op with
            | inl e =>
                Outcome fs [EPrint (msg_processing ip); ERead ip data;
                            ERemove data] (inl e)
            | inr mode' =>
                Outcome (<[op := NFile mode' out]> fs)
                  [EPrint (msg_processing ip); ERead ip data; ERemove data;
                   EWrite op out; EPrint (msg_saved op)] (inr tt)
            end
        end
      else
        Outcome fs [EPrint (msg_processing ip)] (inl (PermissionError ip))
  end.
Proof.
  unfold remove_background, read_bytes, call_remove, print, emit, get_fs,
    ret, raise, bind; simpl.
  destruct (fs !! ip) as [[mode data|]|] eqn:Hin; simpl; [| |done].
  - destruct (readable mode); simpl; [|done].
    destruct (remove data) as [msg|out]; simpl; [done|].
    rewrite write_bytes_eq. by destruct (open_target fs op).
  - done.
Qed.


(** X2.  A call of [remove_background] that raises leaves the filesystem
    as it found it and writes nothing: the exception is the one of the
    read (nothing but the [Processing] line was observed), the
    capability's, or the one of opening the output path (after the read
    and the call), and an existing output file keeps its bytes. *)
Theorem remove_background_raises remove ip op fs e :
  result (remove_background remove ip op fs) = inl e →
  fs_after (remove_background remove ip op fs) = fs ∧
  written_paths (events (remove_background remove ip op fs)) = [] ∧
  (result (read_bytes ip fs) = inl e ∧
   events (remove_background remove ip op fs) = [EPrint (msg_processing ip)]
   ∨
   ∃ mode data,
     fs !! ip = Some (NFile mode data) ∧
     events (remove_background remove ip op fs)
       = [EPrint (msg_processing ip); ERead ip data; ERemove data] ∧
     ((∃ msg, remove data = inl msg ∧ e = RembgError msg) ∨
      (∃ out, remove data = inr out ∧ open_target fs op = inl e))).
Proof.
  rewrite remove_background_eq.
  unfold read_bytes, bind, get_fs. cbn [fs_after events result].
  destruct (fs !! ip) as [[mode data|]|].
  - destruct (readable mode) eqn:Hr.
    + destruct (remove data) as [msg|out] eqn:Hrm.
      * intros [= <-]. split_and!; [done..|]. right.
        exists mode, data. split_and!; [done..|]. left. by exists msg.
      * destruct (open_target fs op) as [e'|mode'] eqn:Ho; [|done].
        intros [= <-]. split_and!; [done..|]. right.
        exists mode, data. split_and!; [done..|]. right. by exists out.
    + intros [= <-]. split_and!; [done..|]. by left.
  - intros [= <-]. split_and!; [done..|]. by left.
  - intros [= <-]. split_and!; [done..|]. by left.
Qed.

Lemma remove_background_raises_witness :
  fs_after (remove_background sample_remove "public/set1_listening.png"
              "public/set1_silent.png" sample_fs_empty_icon)
    = sample_fs_empty_icon ∧
  written_paths
    (events (remove_background sample_remove "public/set1_listening.png"
               "public/set1_silent.png" sample_fs_empty_icon)) = [] ∧
  (result (read_bytes "public/set1_listening.png" sample_fs_empty_icon)
     = inl (RembgError "empty image") ∧
   events (remove_background sample_remove "public/set1_listening.png"
             "public/set1_silent.png" sample_fs_empty_icon)
     = [EPrint (msg_processing "public/set1_listening.png")]
   ∨
   ∃ mode data,
     sample_fs_empty_icon !! "public/set1_listening.png"
       = Some (NFile mode data) ∧
     events (remove_background sample_remove "public/set1_listening.png"
               "public/set1_silent.png" sample_fs_empty_icon)
       = [EPrint (msg_processing "public/set1_listening.png");
          ERead "public/set1_listening.png" data; ERemove data] ∧
     ((∃ msg, sample_remove data = inl msg
              ∧ RembgError "empty image" = RembgError msg) ∨
      (∃ out, sample_remove data = inr out ∧
              open_target sample_fs_empty_icon "public/set1_silent.png"
              = inl (RembgError "empty image")))).
Proof.
  apply (remove_background_raises sample_remove
           "public/set1_listening.png" "public/set1_silent.png"
           sample_fs_empty_icon (RembgError "empty image")).
  by vm_compute.
Defined.

(** X3.  [remove_background(p, p)] converts a readable and writable file
    in place: the file is read to the end before it is opened for writing,
    so afterwards [p] holds the capability's answer to its former bytes,
    with its mode unchanged, and nothing else has changed. *)
Theorem remove_background_in_place remove p fs mode data out :
  fs !! p = Some (NFile mode data) →
  readable mode = true → writable mode = true →
  remove data = inr out →
  remove_background remove p p fs =
  Outcome (<[p := NFile mode out]> fs)
    [EPrint (msg_processing p); ERead p data; ERemove data;
     EWrite p out; EPrint (msg_saved p)] (inr tt).
Proof.
  intros Hp Hr Hw Hrm. rewrite remove_background_eq.
  unfold open_target. by rewrite Hp, Hr, Hrm, Hw.
Qed.

Lemma remove_background_in_place_witness :
  remove_background sample_remove "icon.png" "icon.png" sample_fs_single =
  Outcome (<["icon.png" := NFile read_write [x03; x02; x01]]> sample_fs_single)
    [EPrint (msg_processing "icon.png");
     ERead "icon.png" [x01; x02; x03]; ERemove [x01; x02; x03];
     EWrite "icon.png" [x03; x02; x01];
     EPrint (msg_saved "icon.png")] (inr tt).
Proof.
  apply (remove_background_in_place sample_remove "icon.png"
           sample_fs_single read_write [x01; x02; x03] [x03; x02; x01]);
    reflexivity.
Defined.


(** ** [main]: creating the output directory *)

(** X5.  [exist_ok=True] forgives an existing directory only.  [main] ends
    with [FileExistsError] exactly when a regular file stands at
    [public/transparent]; and whenever [os.makedirs] raises, [main] ends
    with that exception before printing anything and before testing,
    reading or writing any icon. *)
Theorem main_output_dir_failure remove fs :
  (∀ p, result (main remove fs) = inl (FileExistsError p) ↔
        p = output_dir ∧ ∃ mode c, fs !! output_dir = Some (NFile mode c)) ∧
  (∀ e, result (os.makedirs output_dir true fs) = inl e →
        result (main remove fs) = inl e ∧
        events (main remove fs) = events (os.makedirs output_dir true fs) ∧
        printed_lines (events (main remove fs)) = [] ∧
        checked_paths (events (main remove fs)) = [] ∧
        written_paths (events (main remove fs)) = []).
Proof.
  split.
  - intros p. pose proof (main_after remove fs) as Hm. revert Hm.
    rewrite makedirs_eq. unfold makedirs_outcome. split.
    + destruct (fs !! input_dir) as [[]|], (fs !! output_dir) as [[]|];
        cbn [fs_after events result] in Hm; destruct Hm as [_ ->];
        try (intros [= <-]; split; [done|by eexists _, _]); try done;
        intros Hres;
        apply loop_error_from_pass in Hres as (n & fs' & _ & Hres);
        by apply body_error_kinds with (p := p) in Hres.
    + intros [-> (mode & c & Ho)]. rewrite Ho in Hm.
      by destruct (fs !! input_dir) as [[]|]; destruct Hm as [_ ->].
  - intros e Hmk. rewrite main_eq. unfold main_outcome. cbv zeta.
    rewrite Hmk. cbn [fs_after events result]. split_and!; [done..| | |];
      rewrite makedirs_eq; unfold makedirs_outcome;
      by destruct (fs !! input_dir) as [[]|],
                  (fs !! output_dir) as [[]|].
Qed.

(** ** [main]: the passes are independent *)

Lemma pass_result_at_start remove (pre : list string) n post fs :
  icons = pre ++ n :: post →
  result (main_loop_body remove n
            (fs_after (for_each pre (main_loop_body remove) fs)))
  = result (main_loop_body remove n fs) ∧
  events (main_loop_body remove n
            (fs_after (for_each pre (main_loop_body remove) fs)))
  = events (main_loop_body remove n fs).
Proof.
  intros (Hn & Hpre & _ & _ & _ & Hfresh & _)%split_icons_facts.
  apply body_result_agree; [done|apply loop_frame..].
  - intros m Hm. apply input_output_disjoint; auto.
  - intros m Hm Heq. apply output_path_inj in Heq; auto. by subst.
  - intros m Hm Heq. by apply (paths_not_dirs m (Hpre m Hm)).
Qed.

Lemma loop_ok_pass remove (pre : list string) n post fs u :
  result (for_each (pre ++ n :: post) (main_loop_body remove) fs) = inr u →
  result (main_loop_body remove n
            (fs_after (for_each pre (main_loop_body remove) fs))) = inr tt.
Proof.
  intros Hok. pose proof (loop_ok_prefix remove _ _ _ _ Hok) as Hpre.
  rewrite (loop_split remove pre n post fs tt Hpre) in Hok.
  cbv zeta in Hok.
  by destruct (result (main_loop_body remove n _)) as [e|[]].
Qed.

(** X6.  [main] returns normally exactly when the output directory can be
    created and each of the three passes, taken alone right after the
    directory creation, returns normally: no pass can make a later one
    fail or succeed, since a pass touches only its own output path. *)
Theorem main_returns_iff remove fs :
  result (main remove fs) = inr tt ↔
  result (os.makedirs output_dir true fs) = inr tt ∧
  ∀ icon, icon ∈ icons →
    result (main_loop_body remove icon
              (fs_after (os.makedirs output_dir true fs))) = inr tt.
Proof.
  pose proof (main_after remove fs) as Hm. split.
  - intros Hok.
    destruct (result (os.makedirs output_dir true fs)) as [e|[]] eqn:Hmk;
      destruct Hm as [_ Hres]; [congruence|].
    split; [done|]. intros icon Hicon. rewrite Hres in Hok.
    destruct (list_elem_of_split _ _ Hicon) as (pre & post & Hsplit).
    rewrite Hsplit in Hok.
    rewrite <- (proj1 (pass_result_at_start remove pre icon post _ Hsplit)).
    by eapply loop_ok_pass.
  - intros [Hmk Hall]. rewrite Hmk in Hm. destruct Hm as [_ ->].
    apply loop_all_pass; auto using NoDup_icons.
Qed.

(** ** [main]: the transcript of a normal run *)

Lemma flat_map_ext_elem {A B} (f g : A → list B) (l : list A) :
  (∀ x, x ∈ l → f x = g x) → flat_map f l = flat_map g l.
Proof.
  induction l as [|a l IH]; intros H; [done|]. cbn [flat_map].
  rewrite (H a) by left. rewrite IH; [done|]. intros x Hx. apply H. by right.
Qed.

Lemma printed_lines_app t1 t2 :
  printed_lines (t1 ++ t2) = printed_lines t1 ++ printed_lines t2.
Proof. unfold printed_lines. apply omap_app. Qed.

Lemma written_paths_app t1 t2 :
  written_paths (t1 ++ t2) = written_paths t1 ++ written_paths t2.
Proof. unfold written_paths. apply omap_app. Qed.

Lemma loop_transcript remove l fs u :
  l ⊆ icons → NoDup l →
  result (for_each l (main_loop_body remove) fs) = inr u →
  printed_lines (events (for_each l (main_loop_body remove) fs))
    = flat_map (icon_lines fs) l ∧
  written_paths (events (for_each l (main_loop_body remove) fs))
    = flat_map (icon_writes fs) l.
Proof.
  revert fs. induction l as [|n l IH]; intros fs Hsub Hnd Hok; [done|].
  apply sublist_icons_cons in Hsub as [Hn Hsub].
  apply NoDup_cons in Hnd as [Hfresh Hnd].
  rewrite loop_cons in Hok |- *. cbv zeta in Hok |- *.
  destruct (result (main_loop_body remove n fs)) as [e|u0] eqn:Hb; [done|].
  cbn [fs_after events result] in Hok |- *.
  rewrite printed_lines_app, written_paths_app. cbn [flat_map].
  destruct (IH _ Hsub Hnd Hok) as [-> ->].
  assert (∀ m, m ∈ l →
            os.path.exists_in (fs_after (main_loop_body remove n fs))
              (input_path_of m)
            = os.path.exists_in fs (input_path_of m)) as Hex.
  { intros m Hm. unfold os.path.exists_in. rewrite body_frame; [done|].
    apply input_output_disjoint; auto. }
  rewrite (flat_map_ext_elem (icon_lines (fs_after _)) (icon_lines fs)),
          (flat_map_ext_elem (icon_writes (fs_after _)) (icon_writes fs));
    [|intros m Hm; unfold icon_writes; by rewrite Hex
     |intros m Hm; unfold icon_lines; by rewrite Hex].
  unfold icon_lines, icon_writes, os.path.exists_in.
  destruct (body_ok_inv _ _ _ _ Hb)
    as [Hnone|(mode & data & out & mode' & Hi & _ & _ & _ & Heq)].
  - rewrite (body_missing remove n fs Hnone), Hnone. done.
  - rewrite Heq, Hi. done.
Qed.

(** X7.  The transcript of a run that returns normally is decided by which
    input paths existed when it started: it prints the banner, then for each
    icon of the list, in order, either [Processing] and [Saved] (the input
    existed) or [File not found] (it did not), then the closing lines; and
    it writes, in the order of the list, exactly the output paths of the
    icons whose input existed. *)
Theorem main_transcript remove fs :
  result (main remove fs) = inr tt →
  printed_lines (events (main remove fs))
    = printed_lines banner ++ flat_map (icon_lines fs) icons ++
      printed_lines closing ∧
  written_paths (events (main remove fs)) = flat_map (icon_writes fs) icons.
Proof.
  intros Hok. pose proof (main_after remove fs) as Hm.
  destruct (result (os.makedirs output_dir true fs)) as [e|[]] eqn:Hmk;
    destruct Hm as [_ Hres]; [congruence|].
  rewrite Hres in Hok.
  destruct (loop_transcript remove icons _ tt (λ _ H, H) NoDup_icons Hok)
    as [Hp Hw].
  assert (∀ m, m ∈ icons →
            os.path.exists_in (fs_after (os.makedirs output_dir true fs))
              (input_path_of m)
            = os.path.exists_in fs (input_path_of m)) as Hex.
  { intros m Hm. unfold os.path.exists_in.
    by rewrite makedirs_keeps_input. }
  rewrite (flat_map_ext_elem (icon_lines (fs_after _)) (icon_lines fs))
    in Hp by (intros m Hm; unfold icon_lines; by rewrite Hex).
  rewrite (flat_map_ext_elem (icon_writes (fs_after _)) (icon_writes fs))
    in Hw by (intros m Hm; unfold icon_writes; by rewrite Hex).
  rewrite main_eq. unfold main_outcome. cbv zeta. rewrite Hmk.
  cbn [events]. rewrite Hok.
  rewrite !printed_lines_app, !written_paths_app, Hp, Hw.
  assert (printed_lines (events (os.makedirs output_dir true fs)) = [] ∧
          written_paths (events (os.makedirs output_dir true fs)) = [])
    as [-> ->].
  { rewrite makedirs_eq. unfold makedirs_outcome.
    by destruct (fs !! input_dir) as [[]|], (fs !! output_dir) as [[]|]. }
  split; [done|]. by rewrite app_nil_r.
Qed.

Lemma main_transcript_witness :
  printed_lines (events (main sample_remove sample_fs))
    = printed_lines banner ++ flat_map (icon_lines sample_fs) icons ++
      printed_lines closing ∧
  written_paths (events (main sample_remove sample_fs))
    = flat_map (icon_writes sample_fs) icons.
Proof.
  apply (main_transcript sample_remove sample_fs). by vm_compute.
Defined.

(** ** [main]: nothing to process *)

Lemma loop_all_missing remove (l : list string) fs :
  (∀ n, n ∈ l → fs !! input_path_of n = None) →
  for_each l (main_loop_body remove) fs =
  Outcome fs
    (flat_map (λ n, [EExists (input_path_of n) false;
                     EPrint (msg_not_found (input_path_of n))]) l)
    (inr tt).
Proof.
  induction l as [|n l IH]; intros Hall; [done|].
  rewrite loop_cons. cbv zeta. rewrite body_missing by (apply Hall; left).
  cbn [fs_after events result]. rewrite IH; [done|].
  intros m Hm. apply Hall. by right.
Qed.

(** X8.  When none of the three input files exists and the output
    directory can be created, [main] still returns normally and prints its
    closing lines, [Background removal complete!] included, although it has
    read nothing, called the capability on nothing and written nothing: the
    only change is the created directory. *)
Theorem main_nothing_to_process remove fs :
  (∀ icon, icon ∈ icons → fs !! input_path_of icon = None) →
  result (os.makedirs output_dir true fs) = inr tt →
  result (main remove fs) = inr tt ∧
  fs_after (main remove fs) = fs_after (os.makedirs output_dir true fs) ∧
  read_data (events (main remove fs)) = [] ∧
  removed_data (events (main remove fs)) = [] ∧
  written_paths (events (main remove fs)) = [] ∧
  printed_lines (events (main remove fs))
    = printed_lines banner ++
      (msg_not_found ∘ input_path_of <$> icons) ++
      printed_lines closing.
Proof.
  intros Hall Hmk.
  assert (for_each icons (main_loop_body remove)
            (fs_after (os.makedirs output_dir true fs))
          = Outcome (fs_after (os.makedirs output_dir true fs))
              (flat_map (λ n, [EExists (input_path_of n) false;
                               EPrint (msg_not_found (input_path_of n))])
                 icons) (inr tt)) as Hloop.
  { apply loop_all_missing. intros n Hn.
    rewrite makedirs_keeps_input; auto. }
  rewrite main_eq. unfold main_outcome. cbv zeta. rewrite Hmk, Hloop.
  cbn [fs_after events result].
  assert (∀ e, e ∈ events (os.makedirs output_dir true fs) →
               ∃ p, e = EMkdir p) as Hev by apply makedirs_events.
  revert Hev. rewrite makedirs_eq. unfold makedirs_outcome.
  by destruct (fs !! input_dir) as [[]|], (fs !! output_dir) as [[]|].
Qed.

Lemma main_nothing_to_process_witness :
  result (main sample_remove ∅) = inr tt ∧
  fs_after (main sample_remove ∅)
    = fs_after (os.makedirs output_dir true ∅) ∧
  read_data (events (main sample_remove ∅)) = [] ∧
  removed_data (events (main sample_remove ∅)) = [] ∧
  written_paths (events (main sample_remove ∅)) = [] ∧
  printed_lines (events (main sample_remove ∅))
    = printed_lines banner ++
      (msg_not_found ∘ input_path_of <$> icons) ++
      printed_lines closing.
Proof.
  apply (main_nothing_to_process sample_remove ∅).
  - intros icon _. apply lookup_empty.
  - by vm_compute.
Defined.

(** ** [main]: what reaches the capability *)

Lemma read_data_app t1 t2 :
  read_data (t1 ++ t2) = read_data t1 ++ read_data t2.
Proof. unfold read_data. apply omap_app. Qed.

Lemma removed_data_app t1 t2 :
  removed_data (t1 ++ t2) = removed_data t1 ++ removed_data t2.
Proof. unfold removed_data. apply omap_app. Qed.

Lemma body_calls remove icon fs :
  removed_data (events (main_loop_body remove icon fs))
    = read_data (events (main_loop_body remove icon fs)) ∧
  length (written_paths (events (main_loop_body remove icon fs)))
    ≤ length (removed_data (events (main_loop_body remove icon fs))) ∧
  length (removed_data (events (main_loop_body remove icon fs))) ≤ 1.
Proof.
  rewrite main_loop_body_eq. unfold loop_body_outcome, events_until_remove.
  destruct (fs !! input_path_of icon) as [[mode data|]|];
    [destruct (readable mode);
       [destruct (remove data);
          [|destruct (open_target fs (output_path_of icon))]|]| |];
    cbn; auto.
Qed.

Lemma loop_calls remove (l : list string) fs :
  removed_data (events (for_each l (main_loop_body remove) fs))
    = read_data (events (for_each l (main_loop_body remove) fs)) ∧
  length (written_paths (events (for_each l (main_loop_body remove) fs)))
    ≤ length (removed_data
                (events (for_each l (main_loop_body remove) fs))) ∧
  length (removed_data (events (for_each l (main_loop_body remove) fs)))
    ≤ length l.
Proof.
  revert fs. induction l as [|n l IH]; intros fs; [by cbn|].
  rewrite loop_cons. cbv zeta.
  destruct (body_calls remove n fs) as (Hb1 & Hb2 & Hb3).
  destruct (result (main_loop_body remove n fs));
    cbn [fs_after events result].
  - split_and!; [done..|]. cbn [length]. lia.
  - destruct (IH (fs_after (main_loop_body remove n fs))) as (H1 & H2 & H3).
    rewrite removed_data_app, read_data_app, written_paths_app,
            !length_app, Hb1, H1.
    rewrite Hb1 in Hb2, Hb3. rewrite H1 in H2, H3.
    split_and!; [done|lia|]. cbn [length]. lia.
Qed.

(** X9.  In every run of [main], however it ends, the capability is called
    on exactly the byte sequences that were read, in the order of the
    reads and once each; there are at most three calls, and no more files
    are written than calls were made. *)
Theorem main_calls_capability_on_reads remove fs :
  removed_data (events (main remove fs))
    = read_data (events (main remove fs)) ∧
  length (written_paths (events (main remove fs)))
    ≤ length (removed_data (events (main remove fs))) ∧
  length (removed_data (events (main remove fs))) ≤ 3.
Proof.
  rewrite main_eq. unfold main_outcome. cbv zeta.
  assert (removed_data (events (os.makedirs output_dir true fs)) = [] ∧
          read_data (events (os.makedirs output_dir true fs)) = [] ∧
          written_paths (events (os.makedirs output_dir true fs)) = [])
    as (Hm1 & Hm2 & Hm3).
  { rewrite makedirs_eq. unfold makedirs_outcome.
    by destruct (fs !! input_dir) as [[]|], (fs !! output_dir) as [[]|]. }
  destruct (result (os.makedirs output_dir true fs));
    cbn [fs_after events result].
  - rewrite Hm1, Hm2, Hm3. cbn. split_and!; [done|lia..].
  - destruct (loop_calls remove icons
                (fs_after (os.makedirs output_dir true fs)))
      as (H1 & H2 & H3).
    rewrite !removed_data_app, !read_data_app, !written_paths_app,
            Hm1, Hm2, Hm3.
    assert (∀ r : exn + unit,
              removed_data (match r with inl _ => [] | inr _ => closing end)
                = [] ∧
              read_data (match r with inl _ => [] | inr _ => closing end)
                = [] ∧
              written_paths (match r with inl _ => [] | inr _ => closing end)
                = []) as Hc by (by intros [|]).
    destruct (Hc (result (for_each icons (main_loop_body remove)
                   (fs_after (os.makedirs output_dir true fs)))))
      as (-> & -> & ->).
    change (removed_data banner) with (@nil (list byte)).
    change (read_data banner) with (@nil (list byte)).
    change (written_paths banner) with (@nil string).
    rewrite !app_nil_l, !app_nil_r. done.
Qed.

(** Two runs that stop at the directory creation. *)
Example main_public_is_file :
  main sample_remove sample_fs_public_is_file =
  Outcome sample_fs_public_is_file [] (inl (NotADirectoryError output_dir)).
Proof. by vm_compute. Qed.

Example main_transparent_is_file :
  result (main sample_remove sample_fs_transparent_is_file)
    = inl (FileExistsError output_dir) ∧
  events (main sample_remove sample_fs_transparent_is_file) = [].
Proof. by vm_compute. Qed.
